(** * Weather/Project/location.py: the [Location] loader and coordinate resolver

    A shallow embedding of class [Location] (location.py) and the properties
    of its coordinate parser, remote lookup, resolution pass and loader.

    Python values are the inductive [pyval]; Python floats are the kernel's
    binary64 floats; exceptions are the error side of a sum; the effects of
    the code (HTTP requests, printed lines, the CSV file) are threaded
    through an explicit [world]. *)

From Stdlib Require Import ZArith Floats SpecFloat Ascii String List Bool Lia.
From stdpp Require Import base option list gmap strings.

Set Warnings "-inexact-float,-register-all,-clear-no-such-hyp".

Local Open Scope Z_scope.
Local Open Scope string_scope.

(** ** Python floats: [float(str)]

    [float] is a builtin.  It is embedded here on ASCII text after the
    grammar of the language reference:

      floatvalue  ::= [sign] (floatnumber | infinity | nan)
      floatnumber ::= number [exponent]
      number      ::= [digitpart] "." digitpart | digitpart ["."]
      digitpart   ::= digit (["_"] digit)*
      exponent    ::= ("e" | "E") [sign] digitpart

    with surrounding whitespace stripped (a character of a text is its
    code point, below 256: tab to carriage return, space, U+0085 and
    U+00A0 are the whitespace there); the value is the decimal number
    rounded once, to nearest even, into binary64 (overflow gives an
    infinity).  [None] stands for the [ValueError] of a malformed text. *)

(** The value of an ASCII digit, "0" (code 48) to "9" (code 57). *)
Definition digit_of (c : ascii) : option Z :=
  let n := Z.of_nat (nat_of_ascii c) in
  if Z.leb 48 n && Z.leb n 57 then Some (n - 48) else None.

Definition is_space (c : ascii) : bool :=
  let n := nat_of_ascii c in
  (Nat.leb 9 n && Nat.leb n 13) || Nat.eqb n 32 || Nat.eqb n 133 || Nat.eqb n 160.

Fixpoint lstrip (s : list ascii) : list ascii :=
  match s with
  | c :: s' => if is_space c then lstrip s' else s
  | [] => []
  end.

Definition strip (s : list ascii) : list ascii :=
  rev (lstrip (rev (lstrip s))).

(** Reads the rest of a digitpart: digits, each optionally preceded by one
    underscore.  [acc] is the number read so far and [n] the count of digits. *)
Fixpoint digits_from (acc : Z) (n : Z) (s : list ascii) : Z * Z * list ascii :=
  match s with
  | c :: s' =>
      match digit_of c with
      | Some d => digits_from (10 * acc + d) (n + 1) s'
      | None =>
          if Ascii.eqb c "_" then
            match s' with
            | c' :: s'' =>
                match digit_of c' with
                | Some d => digits_from (10 * acc + d) (n + 1) s''
                | None => (acc, n, s)
                end
            | [] => (acc, n, s)
            end
          else (acc, n, s)
      end
  | [] => (acc, n, s)
  end.

(** A digitpart, continuing the number [acc]: it starts with a digit. *)
Definition digitpart (acc : Z) (s : list ascii) : option (Z * Z * list ascii) :=
  match s with
  | c :: s' =>
      match digit_of c with
      | Some d => Some (digits_from (10 * acc + d) 1 s')
      | None => None
      end
  | [] => None
  end.

(** number: the digits read as one integer, and how many of them follow
    the point. *)
Definition number (s : list ascii) : option (Z * Z * list ascii) :=
  match digitpart 0 s with
  | Some (ip, _, r) =>
      match r with
      | "."%char :: r' =>
          match digitpart ip r' with
          | Some res => Some res
          | None => Some (ip, 0, r')
          end
      | _ => Some (ip, 0, r)
      end
  | None =>
      match s with
      | "."%char :: r' => digitpart 0 r'
      | _ => None
      end
  end.

Definition sign_of (s : list ascii) : bool * list ascii :=
  match s with
  | "+"%char :: r => (false, r)
  | "-"%char :: r => (true, r)
  | _ => (false, s)
  end.

(** exponent, to the end of the text. *)
Definition exponent (s : list ascii) : option Z :=
  match s with
  | [] => Some 0
  | c :: r =>
      if Ascii.eqb c "e" || Ascii.eqb c "E" then
        let '(neg, r') := sign_of r in
        match digitpart 0 r' with
        | Some (e, _, []) => Some (if neg then - e else e)
        | _ => None
        end
      else None
  end.

(** floatnumber: mantissa [m] and decimal exponent [e], the value [m * 10^e]. *)
Definition floatnumber (s : list ascii) : option (Z * Z) :=
  match number s with
  | Some (m, k, r) =>
      match exponent r with
      | Some e => Some (m, e - k)
      | None => None
      end
  | None => None
  end.

Definition lower (c : ascii) : ascii :=
  let n := nat_of_ascii c in
  if Nat.leb 65 n && Nat.leb n 90 then ascii_of_nat (n + 32) else c.

Definition special (neg : bool) (s : list ascii) : option spec_float :=
  let w := string_of_list_ascii (map lower s) in
  if String.eqb w "inf" || String.eqb w "infinity" then Some (S754_infinity neg)
  else if String.eqb w "nan" then Some S754_nan
  else None.

(** [m * 10^e] rounded to nearest even into binary64. *)
Definition round_decimal (neg : bool) (m e : Z) : spec_float :=
  match m with
  | Zpos p =>
      if Z.leb 0 e then binary_round prec emax neg (Z.to_pos (Zpos p * 10 ^ e)) 0
      else SFdiv prec emax (S754_finite neg p 0)
                           (S754_finite false (Z.to_pos (10 ^ (- e))) 0)
  | _ => S754_zero neg
  end.

Definition py_float (s : string) : option float :=
  let '(neg, body) := sign_of (strip (list_ascii_of_string s)) in
  match special neg body with
  | Some sf => Some (SF2Prim sf)
  | None =>
      match floatnumber body with
      | Some (m, e) => Some (SF2Prim (round_decimal neg m e))
      | None => None
      end
  end.

(** [float(n)] for a Python int. *)
Definition float_of_Z (n : Z) : float :=
  SF2Prim (binary_normalize prec emax n 0 false).

(** ** Python values and exceptions *)

(** The values the code handles: CSV cells (text, numbers), pandas
    timestamps (nanoseconds since the epoch) and decoded JSON. *)
Inductive pyval :=
| VNone
| VBool (b : bool)
| VInt (n : Z)
| VFloat (f : float)
| VStr (s : string)
| VTimestamp (ns : Z)
| VList (l : list pyval)
| VDict (d : list (string * pyval)).

Fixpoint pyval_eqb (x y : pyval) {struct x} : bool :=
  match x, y with
  | VNone, VNone => true
  | VBool a, VBool b => Bool.eqb a b
  | VInt a, VInt b => Z.eqb a b
  | VFloat a, VFloat b => PrimFloat.Leibniz.eqb a b
  | VStr a, VStr b => String.eqb a b
  | VTimestamp a, VTimestamp b => Z.eqb a b
  | VList a, VList b =>
      (fix all2 (a b : list pyval) {struct a} : bool :=
         match a, b with
         | [], [] => true
         | u :: a', v :: b' => pyval_eqb u v && all2 a' b'
         | _, _ => false
         end) a b
  | VDict a, VDict b =>
      (fix all2 (a b : list (string * pyval)) {struct a} : bool :=
         match a, b with
         | [], [] => true
         | (j, u) :: a', (k, v) :: b' =>
             String.eqb j k && pyval_eqb u v && all2 a' b'
         | _, _ => false
         end) a b
  | _, _ => false
  end.

Inductive exn :=
| IndexError
| TypeError
| NotSubscriptable
| ValueError
| OverflowError
| KeyError (k : pyval)
| FileNotFoundError (path : string)
| LibraryError (msg : string).

(** [NotSubscriptable] is the exception of [x[i]] on a number or a bool: a
    [TypeError] on a Python object, an [IndexError] on the numpy scalar
    that a cell of a numeric column is. *)
Definition result (A : Type) : Type := exn + A.

(** [l[i]] with Python's negative indices. *)
Definition py_index {A} (l : list A) (i : Z) : option A :=
  let n := Z.of_nat (length l) in
  let j := if Z.ltb i 0 then n + i else i in
  if Z.leb 0 j && Z.ltb j n then nth_error l (Z.to_nat j) else None.

(** The stop of the slice [l[:i]], clamped as Python does. *)
Definition py_stop (n : nat) (i : Z) : nat :=
  let j := if Z.ltb i 0 then Z.of_nat n + i else i in
  Z.to_nat (Z.min (Z.max j 0) (Z.of_nat n)).

Fixpoint assoc {A} (k : string) (d : list (string * A)) : option A :=
  match d with
  | (j, v) :: d' => if String.eqb j k then Some v else assoc k d'
  | [] => None
  end.

(** What a sequence accepts as an index: an int (a bool is one). *)
Definition as_index (k : pyval) : option Z :=
  match k with
  | VInt i => Some i
  | VBool b => Some (if b then 1 else 0)
  | _ => None
  end.

(** Subscription [v[k]]. *)
Definition getitem (v k : pyval) : result pyval :=
  match v with
  | VDict d =>
      match k with
      | VStr s => match assoc s d with Some x => inr x | None => inl (KeyError k) end
      | VList _ | VDict _ => inl TypeError
      | _ => inl (KeyError k)
      end
  | VList l =>
      match as_index k with
      | Some i => match py_index l i with Some x => inr x | None => inl IndexError end
      | None => inl TypeError
      end
  | VStr s =>
      match as_index k with
      | Some i =>
          match py_index (list_ascii_of_string s) i with
          | Some c => inr (VStr (String c EmptyString))
          | None => inl IndexError
          end
      | None => inl TypeError
      end
  | VFloat _ | VInt _ | VBool _ => inl NotSubscriptable
  | _ => inl TypeError
  end.

(** The slice [v[:i]]. *)
Definition getslice_to (v : pyval) (i : Z) : result pyval :=
  match v with
  | VStr s => inr (VStr (String.substring 0 (py_stop (String.length s) i) s))
  | VList l => inr (VList (firstn (py_stop (length l) i) l))
  | VFloat _ | VInt _ | VBool _ => inl NotSubscriptable
  | _ => inl TypeError
  end.

(** [float(v)]. *)
Definition py_float_of (v : pyval) : result float :=
  match v with
  | VStr s => match py_float s with Some f => inr f | None => inl ValueError end
  | VFloat f => inr f
  | VInt n =>
      match Prim2SF (float_of_Z n) with
      | S754_infinity _ => inl OverflowError
      | _ => inr (float_of_Z n)
      end
  | VBool b => inr (float_of_Z (if b then 1 else 0))
  | _ => inl TypeError
  end.

(** [x in (a, b)]. *)
Definition in_pair (x a b : pyval) : bool := pyval_eqb x a || pyval_eqb x b.

(** ** The dataset, the outside world and the monad of the code *)

(** A cell of a column of text: a text, or the NaN that [read_csv] puts
    where the file has no value. *)
Inductive name :=
| Text (s : string)
| NaN.

(** [f'{n}']: the text itself, and [nan] for a missing value. *)
Definition name_str (n : name) : string :=
  match n with
  | Text s => s
  | NaN => "nan"
  end.

(** The sum [a + b] of two columns of text, cell by cell: a missing value
    on either side gives a missing value. *)
Definition series_add (a b : name) : name :=
  match a, b with
  | Text x, Text y => Text (x ++ y)
  | _, _ => NaN
  end.

Definition name_eqb (a b : name) : bool :=
  match a, b with
  | Text x, Text y => String.eqb x y
  | NaN, NaN => true
  | _, _ => false
  end.

(** One row of the CSV file.  The place and region names are cells of
    text columns; the timestamp and the coordinates are whatever the file
    holds; [Year] and [City_Country] are the columns derived by the
    loader, absent ([None]) from a file that was never written back;
    [other] holds every remaining column by name. *)
Record record := mkRecord {
  dt : pyval;
  City : name;
  Country : name;
  Latitude : pyval;
  Longitude : pyval;
  Year : option pyval;
  City_Country : option name;
  other : list (string * pyval)
}.

Abbreviation frame := (list record).

(** The query of one HTTP request: the [params] of [requests.get]. *)
Record request := mkRequest { address : string; key : string }.

(** What [requests.get(...).json()] did: raised, or gave the decoded body. *)
Inductive http_outcome :=
| Raised (e : exn)
| Replied (body : pyval).

(** A printed line [Error getting coordinates for <city>: <detail>], by
    the two values it interpolates. *)
Inductive line :=
| ErrorStatus (city : name) (status : pyval)
| ErrorExn (city : name) (e : exn).

(** The world: the files by path, the requests sent so far with their
    outcomes, and the lines printed.  A file holds the table cell by
    cell and a cell is read back as it was written: so it is of a text, a
    float, an int and a missing value, and of a timestamp once the loader
    has parsed it again; the text of the CSV file is not modelled. *)
Record world := mkWorld {
  files : gmap string frame;
  requests : list (request * http_outcome);
  stdout : list line
}.

(** Column assignments [data[c] = values]. *)
Definition set_dt (r : record) (v : pyval) : record :=
  mkRecord v (City r) (Country r) (Latitude r) (Longitude r)
           (Year r) (City_Country r) (other r).

Definition set_Year (r : record) (v : pyval) : record :=
  mkRecord (dt r) (City r) (Country r) (Latitude r) (Longitude r)
           (Some v) (City_Country r) (other r).

Definition set_City_Country (r : record) (v : name) : record :=
  mkRecord (dt r) (City r) (Country r) (Latitude r) (Longitude r)
           (Year r) (Some v) (other r).

Definition set_Latitude (r : record) (v : pyval) : record :=
  mkRecord (dt r) (City r) (Country r) v (Longitude r)
           (Year r) (City_Country r) (other r).

Definition set_Longitude (r : record) (v : pyval) : record :=
  mkRecord (dt r) (City r) (Country r) (Latitude r) v
           (Year r) (City_Country r) (other r).

Definition M (A : Type) : Type := world -> result A * world.

Definition ret {A} (x : A) : M A := fun w => (inr x, w).

Definition raise {A} (e : exn) : M A := fun w => (inl e, w).

Definition bind {A B} (c : M A) (k : A -> M B) : M B := fun w =>
  match c w with
  | (inr x, w') => k x w'
  | (inl e, w') => (inl e, w')
  end.

Definition lift {A} (r : result A) : M A := fun w => (r, w).

(** [try: body except Exception as e: handler e]. *)
Definition try_except {A} (body : M A) (handler : exn -> M A) : M A := fun w =>
  match body w with
  | (inr x, w') => (inr x, w')
  | (inl e, w') => handler e w'
  end.

Declare Scope py_scope.
Delimit Scope py_scope with py.
Notation "'do' x <- c 'in' k" := (bind c (fun x => k))
  (at level 10, x name, c at level 100, k at level 200) : py_scope.

Fixpoint mapM {A B} (f : A -> M B) (l : list A) : M (list B) :=
  match l with
  | [] => ret []
  | x :: l' => (do y <- f x in do ys <- mapM f l' in ret (y :: ys))%py
  end.

Fixpoint foldM {A S} (f : S -> A -> M S) (l : list A) (s : S) : M S :=
  match l with
  | [] => ret s
  | x :: l' => (do s' <- f s x in foldM f l' s')%py
  end.

(** A fallible function over a column, stopping at the first exception. *)
Fixpoint traverse {A B} (f : A -> result B) (l : list A) : result (list B) :=
  match l with
  | [] => inr []
  | x :: l' =>
      match f x with
      | inl e => inl e
      | inr y =>
          match traverse f l' with
          | inl e => inl e
          | inr ys => inr (y :: ys)
          end
      end
  end.

Definition print (l : line) : M unit := fun w =>
  (inr tt, mkWorld (files w) (requests w) (stdout w ++ [l])).

Definition read_csv (path : string) : M frame := fun w =>
  match files w !! path with
  | Some d => (inr d, w)
  | None => (inl (FileNotFoundError path), w)
  end.

Definition to_csv (path : string) (d : frame) : M unit := fun w =>
  (inr tt, mkWorld (<[path := d]> (files w)) (requests w) (stdout w)).

(** ** class Location *)

Local Open Scope py_scope.

(** [_coords(self, x)]:
      sign = 1 if x[-1] in ('N', 'E') else -1
      return sign * float(x[:-1]) *)
Definition _coords (x : pyval) : result float :=
  match getitem x (VInt (-1)) with
  | inl e => inl e
  | inr c =>
      let sign := if in_pair c (VStr "N") (VStr "E") then 1 else -1 in
      match getslice_to x (-1) with
      | inl e => inl e
      | inr p =>
          match py_float_of p with
          | inl e => inl e
          | inr f => inr (PrimFloat.mul (float_of_Z sign) f)
          end
      end
  end.

(** [coordinates(self, city)]:
      return [self._coords(city['Latitude']), self._coords(city['Longitude'])] *)
Definition coordinates (city : record) : result (pyval * pyval) :=
  match _coords (Latitude city) with
  | inl e => inl e
  | inr lat =>
      match _coords (Longitude city) with
      | inl e => inl e
      | inr lng => inr (VFloat lat, VFloat lng)
      end
  end.

(** The composite key [f'{city}, {country}'], also the [address] of the
    request. *)
Definition city_country (r : record) : string :=
  name_str (City r) ++ ", " ++ name_str (Country r).

(** [data['City'] + ', ' + data['Country']] on one row: the value of the
    [City_Country] column. *)
Definition derived_key (r : record) : name :=
  series_add (series_add (City r) (Text ", ")) (Country r).

(** [drop_duplicates()] of [data[['City', 'Country', 'Latitude', 'Longitude']]]:
    a row is dropped when an earlier row has the same four values.  The
    rows kept stand for their four selected columns, the only ones read
    from them afterwards. *)
Definition same_place (a b : record) : bool :=
  name_eqb (City a) (City b) && name_eqb (Country a) (Country b)
  && pyval_eqb (Latitude a) (Latitude b) && pyval_eqb (Longitude a) (Longitude b).

Fixpoint drop_duplicates_from (seen : list record) (l : list record) : list record :=
  match l with
  | [] => []
  | r :: l' =>
      if existsb (same_place r) seen then drop_duplicates_from seen l'
      else r :: drop_duplicates_from (r :: seen) l'
  end.

Definition drop_duplicates (l : list record) : list record :=
  drop_duplicates_from [] l.

Section Location.

(** The geocoding service: what a request gets, given the requests
    answered before it. *)
Variable service : list (request * http_outcome) -> request -> http_outcome.

(** [pd.to_datetime] on one cell that is not yet a timestamp, and the
    calendar year of a timestamp ([.dt.year]). *)
Variable parse_datetime : pyval -> result Z.
Variable year_of : Z -> Z.

(** [requests.get(base_url, params = params).json()] *)
Definition requests_get_json (rq : request) : M pyval := fun w =>
  let o := service (requests w) rq in
  let w' := mkWorld (files w) (requests w ++ [(rq, o)]) (stdout w) in
  match o with
  | Raised e => (inl e, w')
  | Replied body => (inr body, w')
  end.

(** [google_coords(self, city)] *)
Definition google_coords (api_key : string) (city : record)
  : M (option (pyval * pyval)) :=
  try_except
    (do response <- requests_get_json (mkRequest (city_country city) api_key) in
     do status <- lift (getitem response (VStr "status")) in
     if pyval_eqb status (VStr "OK") then
       do results <- lift (getitem response (VStr "results")) in
       do first <- lift (getitem results (VInt 0)) in
       do geometry <- lift (getitem first (VStr "geometry")) in
       do location <- lift (getitem geometry (VStr "location")) in
       do lat <- lift (getitem location (VStr "lat")) in
       do lng <- lift (getitem location (VStr "lng")) in
       ret (Some (lat, lng))
     else
       do status' <- lift (getitem response (VStr "status")) in
       do _ <- print (ErrorStatus (City city) status') in
       ret None)
    (fun e =>
       do _ <- print (ErrorExn (City city) e) in
       ret None).

(** One turn of the loop of [_get_coordinates]. *)
Definition resolve_city (api_key : string)
    (cities_coord : gmap string (pyval * pyval)) (city : record)
  : M (gmap string (pyval * pyval)) :=
  let key := city_country city in
  match cities_coord !! key with
  | Some _ => ret cities_coord
  | None =>
      do coord <- google_coords api_key city in
      match coord with
      | Some c => ret (<[key := c]> cities_coord)
      | None =>
          do c <- lift (coordinates city) in
          ret (<[key := c]> cities_coord)
      end
  end.

(** [_get_coordinates(self)] *)
Definition _get_coordinates (api_key : string) (data : frame)
  : M (gmap string (pyval * pyval)) :=
  let cities := drop_duplicates data in
  foldM (resolve_city api_key) cities ∅.

(** [cities_coord[x][i]] for the key [x] of one row; the column
    [City_Country] must be there. *)
Definition lookup_coord (cities_coord : gmap string (pyval * pyval))
    (pick : pyval * pyval -> pyval) (r : record) : result pyval :=
  match City_Country r with
  | None => inl (KeyError (VStr "City_Country"))
  | Some (Text x) =>
      match cities_coord !! x with
      | Some c => inr (pick c)
      | None => inl (KeyError (VStr x))
      end
  | Some NaN => inl (KeyError (VFloat nan))
  end.

(** [_update_file(self)], on the table of [self]; gives the table of
    [self] afterwards.  A column is assigned cell by cell; the type pandas
    chooses for the new column (it keeps a float as it is) is not
    modelled. *)
Definition _update_file (path api_key : string) (data : frame) : M frame :=
  do cities_coord <- _get_coordinates api_key data in
  do lats <- lift (traverse (lookup_coord cities_coord fst) data) in
  let data := zip_with set_Latitude data lats in
  do lngs <- lift (traverse (lookup_coord cities_coord snd) data) in
  let data := zip_with set_Longitude data lngs in
  do _ <- to_csv path data in
  ret data.

(** [pd.to_datetime] on one cell. *)
Definition to_datetime (v : pyval) : result Z :=
  match v with
  | VTimestamp t => inr t
  | _ => parse_datetime v
  end.

Definition is_str (v : pyval) : bool :=
  match v with VStr _ => true | _ => false end.

(** [data['Latitude'].iloc[0]] *)
Definition first_Latitude (data : frame) : result pyval :=
  match data with
  | r :: _ => inr (Latitude r)
  | [] => inl IndexError
  end.

(** [Location(path, api_key)]: the constructed object. *)
Record Location := mkLocation {
  path : string;
  api_key : string;
  data : frame
}.

(** [__init__(self, path, api_key)] *)
Definition __init__ (path api_key : string) : M Location :=
  do data <- read_csv path in
  do stamps <- lift (traverse to_datetime (map dt data)) in
  let data := zip_with set_dt data (map VTimestamp stamps) in
  let data := zip_with set_Year data (map (fun t => VInt (year_of t)) stamps) in
  let data := map (fun r => set_City_Country r (derived_key r)) data in
  do lat0 <- lift (first_Latitude data) in
  if is_str lat0 then
    do data <- _update_file path api_key data in
    ret (mkLocation path api_key data)
  else ret (mkLocation path api_key data).

End Location.

(** ** Functions used to state the properties *)

Definition and_then {A B} (r : result A) (k : A -> result B) : result B :=
  match r with
  | inl e => inl e
  | inr x => k x
  end.

(** The subscriptions of the success branch of [google_coords]:
    [response['results'][0]['geometry']['location']], then its ['lat']
    and ['lng']. *)
Definition location_of (response : pyval) : result (pyval * pyval) :=
  and_then (getitem response (VStr "results")) (fun results =>
  and_then (getitem results (VInt 0)) (fun first =>
  and_then (getitem first (VStr "geometry")) (fun geometry =>
  and_then (getitem geometry (VStr "location")) (fun location =>
  and_then (getitem location (VStr "lat")) (fun lat =>
  and_then (getitem location (VStr "lng")) (fun lng =>
  inr (lat, lng))))))).

(** What [google_coords] returns, by the outcome of its request. *)
Definition reply_of (o : http_outcome) : option (pyval * pyval) :=
  match o with
  | Raised _ => None
  | Replied response =>
      match getitem response (VStr "status") with
      | inl _ => None
      | inr status =>
          if pyval_eqb status (VStr "OK") then
            match location_of response with
            | inr c => Some c
            | inl _ => None
            end
          else None
      end
  end.

(** The pair the loop of [_get_coordinates] records for a row, by the
    outcome of the request sent for it. *)
Definition resolved (o : http_outcome) (c : record) : result (pyval * pyval) :=
  match reply_of o with
  | Some p => inr p
  | None => coordinates c
  end.

(** The request [google_coords] sends for a row, and the world after it
    was answered and [out] was printed. *)
Definition request_of (api_key : string) (c : record) : request :=
  mkRequest (city_country c) api_key.

Definition answered
    (service : list (request * http_outcome) -> request -> http_outcome)
    (api_key : string) (w : world) (c : record) (out : list line) : world :=
  mkWorld (files w)
          (requests w ++ [(request_of api_key c,
                           service (requests w) (request_of api_key c))])
          (stdout w ++ out).

(** The first row of a table with the composite key [k]. *)
Definition has_key (k : string) (r : record) : bool :=
  String.eqb (city_country r) k.

Definition first_with_key (k : string) (l : list record) : option record :=
  List.find (has_key k) l.

(** The addresses a list of answered requests asked for. *)
Definition addresses (l : list (request * http_outcome)) : list string :=
  map (fun e => address (fst e)) l.

(** What a run of the loop over the rows [cs] did, from the mapping [m0]
    and the world [w0]: the requests [new] it sent, and the mapping [res]
    it gave. *)
Definition loop_post (api_key : string) (cs : list record)
    (m0 : gmap string (pyval * pyval)) (w0 : world)
    (res : result (gmap string (pyval * pyval))) (w1 : world)
    (new : list (request * http_outcome))
  : Prop :=
  requests w1 = (requests w0 ++ new)%list /\
  files w1 = files w0 /\
  NoDup (addresses new) /\
  (forall a, a ∈ addresses new ->
     m0 !! a = None /\ exists r, r ∈ cs /\ city_country r = a) /\
  (forall m, res = inr m ->
     (forall k p, m0 !! k = Some p -> m !! k = Some p) /\
     (forall r, r ∈ cs -> is_Some (m !! city_country r)) /\
     (forall k r0, m0 !! k = None -> first_with_key k cs = Some r0 ->
        exists o p, (mkRequest k api_key, o) ∈ new /\
                    resolved o r0 = inr p /\ m !! k = Some p)).

(** A row after [_update_file]: its coordinates are the pair the mapping
    holds for its [City_Country]. *)
Definition with_coords (m : gmap string (pyval * pyval)) (r : record) : record :=
  match City_Country r with
  | Some (Text x) =>
      match m !! x with
      | Some p => set_Longitude (set_Latitude r (fst p)) (snd p)
      | None => r
      end
  | _ => r
  end.

(** The mapping has a pair for the [City_Country] of the row. *)
Definition covered (m : gmap string (pyval * pyval)) (r : record) : Prop :=
  exists x p, City_Country r = Some (Text x) /\ m !! x = Some p.

(** The two column assignments of [_update_file], before the write. *)
Definition write_back (m : gmap string (pyval * pyval)) (data : frame)
  : result frame :=
  and_then (traverse (lookup_coord m fst) data) (fun lats =>
  let data1 := zip_with set_Latitude data lats in
  and_then (traverse (lookup_coord m snd) data1) (fun lngs =>
  inr (zip_with set_Longitude data1 lngs))).

(** A row after the three column assignments of [__init__]. *)
Definition prepare_row (parse_datetime : pyval -> result Z) (year_of : Z -> Z)
    (r : record) : result record :=
  match to_datetime parse_datetime (dt r) with
  | inl e => inl e
  | inr t =>
      inr (mkRecord (VTimestamp t) (City r) (Country r) (Latitude r) (Longitude r)
                    (Some (VInt (year_of t))) (Some (derived_key r)) (other r))
  end.


(** ** An instance for the examples

    Calendar dates written YYYY-MM-DD, as the dataset writes them, read
    into nanoseconds since 1970-01-01; a service that knows Paris only;
    the three rows of the end-to-end scenario. *)

Definition days_from_civil (y m d : Z) : Z :=
  let y' := if Z.leb m 2 then y - 1 else y in
  let era := y' / 400 in
  let yoe := y' - era * 400 in
  let doy := (153 * (if Z.ltb 2 m then m - 3 else m + 9) + 2) / 5 + d - 1 in
  let doe := yoe * 365 + yoe / 4 - yoe / 100 + doy in
  era * 146097 + doe - 719468.

Definition civil_year (ns : Z) : Z :=
  let z := ns / 86400000000000 + 719468 in
  let era := z / 146097 in
  let doe := z - era * 146097 in
  let yoe := (doe - doe / 1460 + doe / 36524 - doe / 146096) / 365 in
  let doy := doe - (365 * yoe + yoe / 4 - yoe / 100) in
  let mp := (5 * doy + 2) / 153 in
  yoe + era * 400 + (if Z.ltb mp 10 then 0 else 1).

Definition days_in_month (y m : Z) : Z :=
  if Z.eqb m 2 then
    if (Z.eqb (y mod 4) 0 && negb (Z.eqb (y mod 100) 0)) || Z.eqb (y mod 400) 0
    then 29 else 28
  else if Z.eqb m 4 || Z.eqb m 6 || Z.eqb m 9 || Z.eqb m 11 then 30
  else 31.

Definition iso_date (v : pyval) : result Z :=
  match v with
  | VStr s =>
      match map digit_of (list_ascii_of_string s) with
      | [Some y1; Some y2; Some y3; Some y4; None;
         Some m1; Some m2; None; Some d1; Some d2] =>
          let y := 1000 * y1 + 100 * y2 + 10 * y3 + y4 in
          let m := 10 * m1 + m2 in
          let d := 10 * d1 + d2 in
          if Z.leb 1 m && Z.leb m 12 && Z.leb 1 d && Z.leb d (days_in_month y m)
          then inr (days_from_civil y m d * 86400000000000)
          else inl (LibraryError "day is out of range for month")
      | _ => inl (LibraryError "Unknown datetime string format")
      end
  | _ => inl (LibraryError "Unknown datetime string format")
  end.

Definition paris_body : pyval :=
  VDict [("results",
          VList [VDict [("geometry",
                         VDict [("location",
                                 VDict [("lat", VFloat 48.8566);
                                        ("lng", VFloat 2.3522)])])]]);
         ("status", VStr "OK")].

Definition paris_only (_ : list (request * http_outcome)) (rq : request)
  : http_outcome :=
  if String.eqb (address rq) "Paris, France" then Replied paris_body
  else Replied (VDict [("results", VList []); ("status", VStr "ZERO_RESULTS")]).

Definition raw_row (date city country lat lng : string) : record :=
  mkRecord (VStr date) (Text city) (Text country) (VStr lat) (VStr lng) None None
           [("AverageTemperature", VFloat 3.5)].

Definition scenario : frame :=
  [raw_row "2015-01-01" "Paris" "France" "48.85N" "2.35E";
   raw_row "2015-02-01" "Paris" "France" "48.85N" "2.35E";
   raw_row "2015-01-01" "Lyon" "France" "45.76N" "4.84E"].

Definition world0 : world :=
  mkWorld {["cities.csv" := scenario]} [] [].


Definition stale : frame :=
  [mkRecord (VStr "2015-01-01") (Text "Paris") (Text "France") (VFloat 48.85)
            (VFloat 2.35) (Some (VInt 1999)) (Some (Text "Lutetia")) []].


(** The scenario as [__init__] prepares it, the pass over it, and the
    load of the file. *)
Definition scenario_prepared : frame :=
  match traverse (prepare_row iso_date civil_year) scenario with
  | inr d => d
  | inl _ => []
  end.

Definition scenario_pass : result (gmap string (pyval * pyval)) * world :=
  _get_coordinates paris_only "k" scenario_prepared world0.

Definition scenario_mapping : gmap string (pyval * pyval) :=
  match fst scenario_pass with
  | inr m => m
  | inl _ => ∅
  end.

Definition scenario_update : result frame * world :=
  _update_file paris_only "cities.csv" "k" scenario_prepared world0.

Definition scenario_resolved : frame :=
  match fst scenario_update with
  | inr d => d
  | inl _ => []
  end.

Definition scenario_load : result Location * world :=
  __init__ paris_only iso_date civil_year "cities.csv" "k" world0.

Definition scenario_location : Location :=
  match fst scenario_load with
  | inr loc => loc
  | inl _ => mkLocation "" "" []
  end.

(** The distinct texts of a list in the order they first appear, leaving
    out those of [seen]. *)
Fixpoint fresh_keys (seen : gset string) (ks : list string) : list string :=
  match ks with
  | [] => []
  | k :: ks' =>
      if decide (k ∈ seen) then fresh_keys seen ks'
      else k :: fresh_keys ({[k]} ∪ seen) ks'
  end.

Definition first_seen (ks : list string) : list string := fresh_keys ∅ ks.

Definition is_float (v : pyval) : bool :=
  match v with VFloat _ => true | _ => false end.

(** A pair of floats. *)
Definition float_pair (p : pyval * pyval) : Prop :=
  is_float (fst p) = true /\ is_float (snd p) = true.

(** The city a printed line names. *)
Definition line_city (l : line) : name :=
  match l with
  | ErrorStatus c _ => c
  | ErrorExn c _ => c
  end.

(** An answered request whose lookup gave [None]. *)
Definition failed (e : request * http_outcome) : bool :=
  match reply_of (snd e) with
  | Some _ => false
  | None => true
  end.

(** * Properties *)

(** ** Floats: multiplying by the sign *)

Lemma digits2_shift52 (m : positive) :
  Z.pos (digits2_pos (m~0~0~0~0~0~0~0~0~0~0~0~0~0~0~0~0~0~0~0~0~0~0~0~0~0~0
                       ~0~0~0~0~0~0~0~0~0~0~0~0~0~0~0~0~0~0~0~0~0~0~0~0~0~0)%positive)
  = Z.pos (digits2_pos m) + 52.
Proof. cbn [digits2_pos]. lia. Qed.

(** Rounding [2^52 * m] at exponent [e - 52] gives back the float [m * 2^e]. *)
Lemma round_times_unit (s : bool) (m : positive) (e : Z) :
  bounded prec emax m e = true ->
  binary_round_aux prec emax s (Z.pos (4503599627370496 * m)) (-52 + e) loc_Exact
  = S754_finite s m e.
Proof.
  intros Hb. unfold bounded in Hb. apply andb_prop in Hb. destruct Hb as [Hc He].
  unfold canonical_mantissa in Hc. apply Z.eqb_eq in Hc.
  unfold binary_round_aux, shr_fexp.
  change (4503599627370496 * m)%positive
    with (m~0~0~0~0~0~0~0~0~0~0~0~0~0~0~0~0~0~0~0~0~0~0~0~0~0~0
           ~0~0~0~0~0~0~0~0~0~0~0~0~0~0~0~0~0~0~0~0~0~0~0~0~0~0)%positive.
  unfold Zdigits2 at 1. rewrite digits2_shift52.
  replace (Z.pos (digits2_pos m) + 52 + (-52 + e)) with (Z.pos (digits2_pos m) + e) by lia.
  rewrite Hc. replace (e - (-52 + e)) with 52 by lia.
  cbn -[fexp Z.add Z.sub Z.leb emax prec].
  replace (-52 + e + 52) with e by lia.
  rewrite Hc, Z.sub_diag. cbn -[Z.leb emax prec Z.sub].
  rewrite He. reflexivity.
Qed.

Lemma SFmul_unit (s : bool) (x : spec_float) :
  SpecFloat.valid_binary prec emax x = true ->
  SFmul prec emax (S754_finite s 4503599627370496 (-52)) x
  = if s then SFopp x else x.
Proof.
  destruct x as [[] | [] | | [] m e]; intros Hv; destruct s; try reflexivity;
    cbn [SFmul xorb SFopp negb]; apply round_times_unit; exact Hv.
Qed.

Lemma mul_one_l (f : float) : PrimFloat.mul 1 f = f.
Proof.
  apply Prim2SF_inj. rewrite mul_spec.
  change (Prim2SF 1) with (S754_finite false 4503599627370496 (-52)).
  unfold SF64mul. rewrite SFmul_unit by apply Prim2SF_valid. reflexivity.
Qed.

Lemma mul_neg_one_l (f : float) : PrimFloat.mul (-1) f = PrimFloat.opp f.
Proof.
  apply Prim2SF_inj. rewrite mul_spec, opp_spec.
  change (Prim2SF (-1)) with (S754_finite true 4503599627370496 (-52)).
  unfold SF64mul. rewrite SFmul_unit by apply Prim2SF_valid. reflexivity.
Qed.

Lemma float_of_Z_1 : float_of_Z 1 = 1%float.
Proof. vm_compute. reflexivity. Qed.

Lemma float_of_Z_m1 : float_of_Z (-1) = (-1)%float.
Proof. vm_compute. reflexivity. Qed.

(** [py_float] on decimal texts, against the floats the kernel reads from
    the same literals: rounding to even, subnormals, overflow, the
    grammar's corner cases. *)
Example py_float_decimals :
  py_float "40.7128" = Some 40.7128%float /\
  py_float "  -74.0060 " = Some (-74.0060)%float /\
  py_float "1_0.5e-3" = Some 0.0105%float /\
  py_float "0.1" = Some 0.1%float /\
  py_float ".5" = Some 0.5%float /\
  py_float "5." = Some 5%float /\
  py_float "-0" = Some (-0)%float /\
  py_float "1e23" = Some 1e23%float /\
  py_float "9007199254740993" = Some 9007199254740992%float /\
  py_float "4.9e-324" = Some 4.9e-324%float /\
  py_float "1e400" = Some infinity /\
  py_float "-Infinity" = Some neg_infinity /\
  py_float "nan" = Some nan.
Proof. vm_compute. repeat split. Qed.

Example py_float_malformed :
  py_float "" = None /\ py_float "." = None /\ py_float "48.8." = None /\
  py_float "1_" = None /\ py_float "1__0" = None /\ py_float "4 8" = None /\
  py_float "N" = None /\ py_float "1e" = None.
Proof. vm_compute. repeat split. Qed.

(** ** The raw coordinate parser *)

Lemma append_cons (c : ascii) (a b : string) :
  String c a ++ b = String c (a ++ b).
Proof. reflexivity. Qed.

Lemma list_ascii_of_string_app (a b : string) :
  list_ascii_of_string (a ++ b) = (list_ascii_of_string a ++ list_ascii_of_string b)%list.
Proof.
  induction a as [|c a IH]; [reflexivity|].
  rewrite append_cons. cbn. now rewrite IH.
Qed.

Lemma string_length_snoc (p : string) (c : ascii) :
  String.length (p ++ String c "") = S (String.length p).
Proof.
  induction p as [|d p IH]; [reflexivity|].
  rewrite append_cons. cbn. now rewrite IH.
Qed.

Lemma substring_snoc (p : string) (c : ascii) :
  String.substring 0 (String.length p) (p ++ String c "") = p.
Proof.
  induction p as [|d p IH]; [reflexivity|].
  rewrite append_cons. cbn. now rewrite IH.
Qed.

(** Every non-empty text is a prefix followed by its final character. *)
Lemma string_snoc (s : string) :
  s <> "" -> exists p c, s = p ++ String c "".
Proof.
  induction s as [|d s IH]; intros Hs; [congruence|].
  destruct s as [|e s].
  - exists "", d. reflexivity.
  - destruct IH as (p & c & Hp); [discriminate|].
    exists (String d p), c. rewrite append_cons. now rewrite Hp.
Qed.

Lemma py_index_last {A} (l : list A) (x : A) : py_index (l ++ [x]) (-1) = Some x.
Proof.
  unfold py_index. rewrite length_app. cbn [length Z.ltb Z.compare].
  replace (Z.of_nat (length l + 1) + -1) with (Z.of_nat (length l)) by lia.
  replace (Z.leb 0 (Z.of_nat (length l)) && Z.ltb (Z.of_nat (length l)) (Z.of_nat (length l + 1)))
    with true by (symmetry; apply andb_true_intro; split; [apply Z.leb_le | apply Z.ltb_lt]; lia).
  rewrite Nat2Z.id, nth_error_app2 by lia. now rewrite Nat.sub_diag.
Qed.

Lemma py_stop_last (n : nat) : py_stop (S n) (-1) = n.
Proof. unfold py_stop. cbn [Z.ltb Z.compare]. lia. Qed.

Lemma getitem_last (p : string) (c : ascii) :
  getitem (VStr (p ++ String c "")) (VInt (-1)) = inr (VStr (String c "")).
Proof.
  cbn [getitem as_index]. rewrite list_ascii_of_string_app. cbn [list_ascii_of_string].
  now rewrite py_index_last.
Qed.

Lemma getslice_init (p : string) (c : ascii) :
  getslice_to (VStr (p ++ String c "")) (-1) = inr (VStr p).
Proof.
  cbn [getslice_to]. now rewrite string_length_snoc, py_stop_last, substring_snoc.
Qed.

Lemma in_pair_char (c a b : ascii) :
  in_pair (VStr (String c "")) (VStr (String a "")) (VStr (String b ""))
  = Ascii.eqb c a || Ascii.eqb c b.
Proof.
  unfold in_pair. cbn [pyval_eqb String.eqb].
  now destruct (Ascii.eqb c a), (Ascii.eqb c b).
Qed.

(** [_coords] on a text with final character [c]: the sign chosen by [c]
    times the float of the prefix. *)
Lemma _coords_snoc (p : string) (c : ascii) :
  _coords (VStr (p ++ String c "")) =
  match py_float p with
  | Some f =>
      inr (if Ascii.eqb c "N" || Ascii.eqb c "E" then f else PrimFloat.opp f)
  | None => inl ValueError
  end.
Proof.
  unfold _coords. rewrite getitem_last, getslice_init.
  change (VStr "N") with (VStr (String "N"%char "")).
  change (VStr "E") with (VStr (String "E"%char "")).
  rewrite in_pair_char. cbn [py_float_of].
  destruct (py_float p) as [f|]; [|reflexivity].
  destruct (Ascii.eqb c "N" || Ascii.eqb c "E").
  - now rewrite float_of_Z_1, mul_one_l.
  - now rewrite float_of_Z_m1, mul_neg_one_l.
Qed.

(** C1. A raw coordinate "<magnitude>H" whose magnitude reads as the
    decimal number [f] parses to [f] when the hemisphere letter H is N or
    E and to [-f] when it is S or W; "40.7128N" parses to 40.7128,
    "74.0060W" to -74.0060 and "0N" to 0.0. *)
Theorem coords_hemisphere (m : string) (f : float) :
  py_float m = Some f ->
  _coords (VStr (m ++ "N")) = inr f /\
  _coords (VStr (m ++ "E")) = inr f /\
  _coords (VStr (m ++ "S")) = inr (PrimFloat.opp f) /\
  _coords (VStr (m ++ "W")) = inr (PrimFloat.opp f) /\
  _coords (VStr "40.7128N") = inr 40.7128%float /\
  _coords (VStr "74.0060W") = inr (-74.0060)%float /\
  _coords (VStr "0N") = inr 0%float.
Proof.
  intros Hm. repeat split; try (rewrite _coords_snoc, Hm; reflexivity);
    vm_compute; reflexivity.
Qed.

Lemma coords_hemisphere_witness :
  py_float "45.76" = Some 45.76%float /\
  _coords (VStr "45.76S") = inr (-45.76)%float.
Proof.
  assert (H : py_float "45.76" = Some 45.76%float) by (vm_compute; reflexivity).
  split; [exact H|].
  exact (proj1 (proj2 (proj2 (coords_hemisphere "45.76" 45.76%float H)))).
Defined.

(** C10. On a non-empty text whose final character is neither N nor E the
    parser drops that character and negates the float of the rest (a
    [ValueError] when the rest is not a number): no letter is rejected,
    and the plain number "48.85" is read as -48.8. *)
Theorem coords_any_other_letter (p : string) (c : ascii) :
  c <> "N"%char -> c <> "E"%char ->
  _coords (VStr (p ++ String c "")) =
    match py_float p with
    | Some f => inr (PrimFloat.opp f)
    | None => inl ValueError
    end
  /\ _coords (VStr "48.85") = inr (-48.8)%float.
Proof.
  intros HN HE. split; [|vm_compute; reflexivity].
  rewrite _coords_snoc.
  apply Ascii.eqb_neq in HN, HE. now rewrite HN, HE.
Qed.

Lemma coords_any_other_letter_witness :
  _coords (VStr ("2.35" ++ String "X"%char "")) = inr (-2.35)%float.
Proof.
  exact (proj1 (coords_any_other_letter "2.35" "X"%char
                  ltac:(discriminate) ltac:(discriminate))).
Defined.

(** ** The remote lookup *)

Lemma pyval_eqb_str (v : pyval) (s : string) :
  pyval_eqb v (VStr s) = true <-> v = VStr s.
Proof.
  destruct v; cbn; try (split; [discriminate | congruence]).
  rewrite String.eqb_eq. split; congruence.
Qed.

Section Lookup.

Variable service : list (request * http_outcome) -> request -> http_outcome.

(** C5. [google_coords] never raises: it sends one request and returns a
    pair exactly when the body's status is "OK" and the first result's
    latitude and longitude can be extracted; when the request raised, or
    the status is anything else, it returns [None].  The file store is
    left alone. *)
Theorem google_coords_reply (api_key : string) (city : record) (w : world) :
  let rq := mkRequest (city_country city) api_key in
  let o := service (requests w) rq in
  exists r out,
    google_coords service api_key city w
      = (inr r, mkWorld (files w) (requests w ++ [(rq, o)]) (stdout w ++ out)) /\
    (forall lat lng, r = Some (lat, lng) <->
       exists body results first geometry location,
         o = Replied body /\
         getitem body (VStr "status") = inr (VStr "OK") /\
         getitem body (VStr "results") = inr results /\
         getitem results (VInt 0) = inr first /\
         getitem first (VStr "geometry") = inr geometry /\
         getitem geometry (VStr "location") = inr location /\
         getitem location (VStr "lat") = inr lat /\
         getitem location (VStr "lng") = inr lng) /\
    (forall e, o = Raised e -> r = None) /\
    (forall body status, o = Replied body ->
       getitem body (VStr "status") = inr status -> status <> VStr "OK" -> r = None).
Proof.
  intros rq o.
  unfold google_coords, try_except, bind, requests_get_json, lift, print, ret.
  fold rq. fold o. cbn [requests files stdout].
  destruct o as [e | body] eqn:Ho.
  { exists None, [ErrorExn (City city) e]. repeat split; try congruence.
    intros (? & ? & ? & ? & ? & ? & _); congruence. }
  destruct (getitem body (VStr "status")) as [e | status] eqn:Hs.
  { exists None, [ErrorExn (City city) e]. repeat split; try congruence.
    intros (? & ? & ? & ? & ? & Hb & Hs' & _); congruence. }
  destruct (pyval_eqb status (VStr "OK")) eqn:Hok.
  2:{ exists None, [ErrorStatus (City city) status].
      cbn [requests files stdout].
      repeat split; try congruence.
      intros (? & ? & ? & ? & ? & Hb & Hs' & _).
      assert (status = VStr "OK") by congruence. subst status.
      cbn in Hok. discriminate. }
  apply pyval_eqb_str in Hok. subst status.
  repeat match goal with
  | |- context [getitem ?a ?b] =>
      lazymatch goal with
      | H : getitem a b = _ |- _ => rewrite H
      | _ =>
          let e := fresh "e" in let v := fresh "v" in let H := fresh "H" in
          destruct (getitem a b) as [e | v] eqn:H;
          [ exists None, [ErrorExn (City city) e];
            split; [reflexivity|]; split;
            [ split; [discriminate|];
              intros (? & ? & ? & ? & ? & Hb & ? & ? & ? & ? & ? & ? & ?);
              injection Hb as <-; congruence
            | split; congruence ]
          | ]
      end
  end.
  exists (Some (v3, v4)), []. rewrite app_nil_r.
  split; [reflexivity|]. split; [|split; congruence].
  intros lat lng. split.
  - intros [= <- <-]. exists body, v, v0, v1, v2. auto 10.
  - intros (? & ? & ? & ? & ? & Hb & ? & ? & ? & ? & ? & ? & ?).
    injection Hb as <-. congruence.
Qed.

End Lookup.

(** ** The resolution pass *)

Section Resolver.

Variable service : list (request * http_outcome) -> request -> http_outcome.
Variable api_key : string.

Abbreviation mapping := (gmap string (pyval * pyval)).

Abbreviation req := (request_of api_key).
Abbreviation answer := (answered service api_key).

Lemma google_coords_run (c : record) (w : world) :
  exists out,
    google_coords service api_key c w
    = (inr (reply_of (service (requests w) (req c))), answer w c out).
Proof.
  unfold google_coords, try_except, bind, requests_get_json, lift, print, ret,
    answered, reply_of, location_of, and_then, request_of.
  fold (req c). cbn [requests files stdout].
  destruct (service (requests w) (req c)) as [e | body];
    [eexists [_]; reflexivity|].
  destruct (getitem body (VStr "status")) as [e | status];
    [eexists [_]; reflexivity|].
  destruct (pyval_eqb status (VStr "OK")); [|eexists [_]; reflexivity].
  repeat match goal with
  | |- context [getitem ?a ?b] =>
      destruct (getitem a b); [eexists [_]; reflexivity|]
  end.
  exists []. now rewrite app_nil_r.
Qed.

Lemma resolve_city_known (m : mapping) (c : record) (w : world) :
  is_Some (m !! city_country c) ->
  resolve_city service api_key m c w = (inr m, w).
Proof. intros [p Hp]. unfold resolve_city. now rewrite Hp. Qed.

Lemma resolve_city_new (m : mapping) (c : record) (w : world) :
  m !! city_country c = None ->
  exists out,
    resolve_city service api_key m c w
    = (match resolved (service (requests w) (req c)) c with
       | inr p => inr (<[city_country c := p]> m)
       | inl e => inl e
       end, answer w c out).
Proof.
  intros Hm. unfold resolve_city, bind, resolved. rewrite Hm.
  destruct (google_coords_run c w) as [out ->]. exists out.
  destruct (reply_of _) as [p|]; [reflexivity|].
  unfold lift, ret. now destruct (coordinates c).
Qed.

(** *** [drop_duplicates] keeps the first row of every key *)

Lemma name_eqb_eq (a b : name) : name_eqb a b = true -> a = b.
Proof.
  destruct a as [x|], b as [y|]; cbn; try discriminate; [|reflexivity].
  intros H. apply String.eqb_eq in H. now subst.
Qed.

Lemma same_place_key (a b : record) :
  same_place a b = true -> city_country a = city_country b.
Proof.
  unfold same_place, city_country. intros H.
  repeat (apply andb_prop in H; destruct H as [H ?]).
  apply name_eqb_eq in H. rewrite H.
  match goal with E : name_eqb (Country a) _ = true |- _ =>
    apply name_eqb_eq in E; now rewrite E end.
Qed.

Lemma has_key_true (k : string) (r : record) :
  has_key k r = true <-> city_country r = k.
Proof. unfold has_key. apply String.eqb_eq. Qed.

Lemma drop_duplicates_from_elem (seen l : list record) (r : record) :
  r ∈ drop_duplicates_from seen l -> r ∈ l.
Proof.
  revert seen. induction l as [|c l IH]; intros seen; cbn; [auto|].
  destruct (existsb (same_place c) seen).
  - intros H. right. eauto.
  - intros [->|H]%elem_of_cons; [left | right; eauto].
Qed.

Lemma drop_duplicates_from_first (k : string) (seen l : list record) :
  (forall s, s ∈ seen -> city_country s <> k) ->
  first_with_key k (drop_duplicates_from seen l) = first_with_key k l.
Proof.
  unfold first_with_key. revert seen.
  induction l as [|c l IH]; intros seen Hseen; cbn; [reflexivity|].
  destruct (has_key k c) eqn:Hc.
  - destruct (existsb (same_place c) seen) eqn:Hdup; cbn; [|now rewrite Hc].
    apply existsb_exists in Hdup. destruct Hdup as (s & Hs & Hsame).
    apply has_key_true in Hc. apply same_place_key in Hsame.
    exfalso. apply (Hseen s); [now apply list_elem_of_In | congruence].
  - destruct (existsb (same_place c) seen); cbn; [now apply IH|].
    rewrite Hc. apply IH. intros s [->|Hs]%elem_of_cons; [|now apply Hseen].
    intros E. apply has_key_true in E. congruence.
Qed.

Lemma drop_duplicates_from_key (seen l : list record) (r : record) :
  r ∈ l ->
  (exists s, s ∈ seen /\ city_country s = city_country r) \/
  (exists c, c ∈ drop_duplicates_from seen l /\ city_country c = city_country r).
Proof.
  revert seen. induction l as [|c l IH]; intros seen; [intros H; inversion H|].
  cbn. destruct (existsb (same_place c) seen) eqn:Hdup.
  - intros [->|H]%elem_of_cons; [|now apply IH].
    apply existsb_exists in Hdup. destruct Hdup as (s & Hs & Hsame).
    left. exists s. split; [now apply list_elem_of_In|].
    symmetry. now apply same_place_key.
  - intros [->|H]%elem_of_cons.
    + right. exists c. split; [left | reflexivity].
    + destruct (IH (c :: seen) H) as [(s & Hs & E) | (c' & Hc' & E)].
      * apply elem_of_cons in Hs. destruct Hs as [->|Hs].
        -- right. exists c. split; [left | exact E].
        -- left. eauto.
      * right. exists c'. split; [now right | exact E].
Qed.

End Resolver.

Section Pass.

Variable service : list (request * http_outcome) -> request -> http_outcome.
Variable api_key : string.

Abbreviation mapping := (gmap string (pyval * pyval)).

Lemma foldM_resolve_city (cs : list record) :
  forall m0 w0 res w1,
    foldM (resolve_city service api_key) cs m0 w0 = (res, w1) ->
    exists new, loop_post api_key cs m0 w0 res w1 new.
Proof.
  induction cs as [|c cs IH]; intros m0 w0 res w1 Hrun.
  - cbn in Hrun. injection Hrun as <- <-. exists [].
    unfold loop_post. rewrite app_nil_r. split_and!; try reflexivity.
    + constructor.
    + intros a []%elem_of_nil.
    + intros m [= <-]. split_and!; [auto | intros r []%elem_of_nil | discriminate].
  - cbn [foldM] in Hrun. unfold bind in Hrun.
    destruct (m0 !! city_country c) as [p0|] eqn:Hc.
    + rewrite resolve_city_known in Hrun by (rewrite Hc; eauto).
      destruct (IH _ _ _ _ Hrun) as (new & Hreq & Hfiles & Hnd & Haddr & Hres).
      exists new. unfold loop_post. split_and!; try assumption.
      * intros a Ha. destruct (Haddr a Ha) as (Hnone & r & Hr & E).
        split; [exact Hnone|]. exists r. split; [now right | exact E].
      * intros m Hm. destruct (Hres m Hm) as (Hkeep & Hall & Hnew). split_and!.
        -- exact Hkeep.
        -- intros r [->|Hr]%elem_of_cons; [|now apply Hall].
           rewrite (Hkeep _ _ Hc). eauto.
        -- intros k r0 Hk Hfirst. unfold first_with_key in Hfirst. cbn in Hfirst.
           destruct (has_key k c) eqn:Hkc; [|now apply Hnew].
           apply has_key_true in Hkc. congruence.
    + destruct (resolve_city_new service api_key m0 c w0 Hc) as [out Hstep].
      rewrite Hstep in Hrun. clear Hstep.
      set (o := service (requests w0) (request_of api_key c)) in *.
      destruct (resolved o c) as [e | p] eqn:Hp.
      * injection Hrun as <- <-. exists [(request_of api_key c, o)].
        unfold loop_post. split_and!; try reflexivity.
        -- apply NoDup_singleton.
        -- intros a Ha. cbn in Ha. apply list_elem_of_singleton in Ha. subst a.
           split; [exact Hc|]. exists c. split; [left | reflexivity].
        -- discriminate.
      * destruct (IH _ _ _ _ Hrun) as (new & Hreq & Hfiles & Hnd & Haddr & Hres).
        exists ((request_of api_key c, o) :: new).
        assert (Hfresh : city_country c ∉ addresses new).
        { intros Hin. destruct (Haddr _ Hin) as [Hnone _].
          now rewrite lookup_insert_eq in Hnone. }
        unfold loop_post. split_and!.
        -- rewrite Hreq. cbn. now rewrite <- app_assoc.
        -- exact Hfiles.
        -- cbn. now apply NoDup_cons.
        -- intros a Ha. cbn in Ha. apply elem_of_cons in Ha.
           destruct Ha as [->|Ha].
           ++ split; [exact Hc|]. exists c. split; [left | reflexivity].
           ++ destruct (Haddr _ Ha) as (Hnone & r & Hr & E).
              apply lookup_insert_None in Hnone.
              split; [tauto|]. exists r. split; [now right | exact E].
        -- intros m Hm. destruct (Hres m Hm) as (Hkeep & Hall & Hnew).
           assert (Hcm : m !! city_country c = Some p)
             by apply Hkeep, lookup_insert_eq.
           split_and!.
           ++ intros k q Hk. apply Hkeep.
              rewrite lookup_insert_ne; [exact Hk | congruence].
           ++ intros r [->|Hr]%elem_of_cons; [rewrite Hcm; eauto | now apply Hall].
           ++ intros k r0 Hk Hfirst. unfold first_with_key in Hfirst.
              cbn in Hfirst. destruct (has_key k c) eqn:Hkc.
              ** injection Hfirst as <-. apply has_key_true in Hkc. subst k.
                 exists o, p. split; [left | auto].
              ** destruct (Hnew k r0) as (o' & p' & Hin & Ho' & Hm'); [|exact Hfirst|].
                 { rewrite lookup_insert_ne; [exact Hk|].
                   intros E. apply has_key_true in E. congruence. }
                 exists o', p'. split; [now right | auto].
Qed.

End Pass.

(** ** The write-back *)

Lemma traverse_ok {A B} (f : A -> result B) (g : A -> B) (l : list A) :
  Forall (fun x => f x = inr (g x)) l -> traverse f l = inr (map g l).
Proof.
  induction 1 as [|x l Hx _ IH]; cbn; [reflexivity|]. now rewrite Hx, IH.
Qed.

Lemma traverse_inv {A B} (f : A -> result B) (l : list A) (ys : list B) :
  traverse f l = inr ys -> Forall2 (fun x y => f x = inr y) l ys.
Proof.
  revert ys. induction l as [|x l IH]; cbn; intros ys H.
  - injection H as <-. constructor.
  - destruct (f x) as [e|y] eqn:Hx; [discriminate|].
    destruct (traverse f l) as [e|ys'] eqn:Hl; [discriminate|].
    injection H as <-. constructor; auto.
Qed.

Lemma zip_with_map_same {A B C} (f : A -> B -> C) (g : A -> B) (l : list A) :
  zip_with f l (map g l) = map (fun x => f x (g x)) l.
Proof. induction l as [|x l IH]; cbn; [reflexivity | now rewrite IH]. Qed.

Lemma lookup_coord_inv (m : gmap string (pyval * pyval))
    (pick : pyval * pyval -> pyval) (r : record) (v : pyval) :
  lookup_coord m pick r = inr v -> covered m r.
Proof.
  unfold lookup_coord, covered.
  destruct (City_Country r) as [[x|]|]; [|discriminate|discriminate].
  destruct (m !! x) as [p|] eqn:Hx; [|discriminate]. eauto.
Qed.

Lemma lookup_coord_fst (m : gmap string (pyval * pyval)) (r : record) :
  covered m r -> lookup_coord m fst r = inr (Latitude (with_coords m r)).
Proof.
  intros (x & p & Hx & Hp). unfold lookup_coord, with_coords. now rewrite Hx, Hp.
Qed.

Lemma lookup_coord_snd (m : gmap string (pyval * pyval)) (r : record) (v : pyval) :
  covered m r ->
  lookup_coord m snd (set_Latitude r v) = inr (Longitude (with_coords m r)).
Proof.
  intros (x & p & Hx & Hp). unfold lookup_coord, with_coords. cbn. now rewrite Hx, Hp.
Qed.

Lemma with_coords_covered (m : gmap string (pyval * pyval)) (r : record) :
  covered m r ->
  set_Longitude (set_Latitude r (Latitude (with_coords m r)))
                (Longitude (with_coords m r))
  = with_coords m r.
Proof.
  intros (x & p & Hx & Hp). unfold with_coords. now rewrite Hx, Hp.
Qed.

Lemma write_back_covered (m : gmap string (pyval * pyval)) (data : frame) :
  Forall (covered m) data -> write_back m data = inr (map (with_coords m) data).
Proof.
  intros Hall. unfold write_back.
  rewrite (traverse_ok _ (fun r => Latitude (with_coords m r)))
    by (eapply Forall_impl; [exact Hall | apply lookup_coord_fst]).
  cbn [and_then]. rewrite zip_with_map_same.
  rewrite (traverse_ok _ (fun r => Longitude (with_coords m r))).
  - cbn [and_then]. f_equal. rewrite zip_with_map_same, map_map.
    apply Forall_fmap_ext_1. eapply Forall_impl; [exact Hall|].
    intros r Hr. cbn beta. rewrite <- (with_coords_covered m r Hr) at 3.
    f_equal. unfold with_coords. destruct Hr as (x & p & Hx & Hp).
    cbn. now rewrite Hx, Hp.
  - apply Forall_fmap. eapply Forall_impl; [exact Hall|].
    intros r Hr. cbn. rewrite (lookup_coord_snd m r _ Hr).
    f_equal. unfold with_coords. destruct Hr as (x & p & Hx & Hp).
    cbn. now rewrite Hx, Hp.
Qed.

Lemma write_back_inv (m : gmap string (pyval * pyval)) (data d : frame) :
  write_back m data = inr d ->
  Forall (covered m) data /\ d = map (with_coords m) data.
Proof.
  intros H. assert (Hall : Forall (covered m) data).
  { unfold write_back in H.
    destruct (traverse (lookup_coord m fst) data) as [e|lats] eqn:Hl; [discriminate|].
    apply traverse_inv in Hl. clear H.
    induction Hl as [|r v l vs Hr _ IH]; constructor; eauto using lookup_coord_inv. }
  split; [exact Hall|]. rewrite (write_back_covered m data Hall) in H. congruence.
Qed.

(** ** What the resolution pass sends and returns *)

Section PassProperties.

Variable service : list (request * http_outcome) -> request -> http_outcome.
Variable api_key : string.

Lemma get_coordinates_post (data : frame) (w w1 : world)
    (res : result (gmap string (pyval * pyval))) :
  _get_coordinates service api_key data w = (res, w1) ->
  exists new, loop_post api_key (drop_duplicates data) ∅ w res w1 new.
Proof. apply foldM_resolve_city. Qed.

(** C2. Whatever the dataset, the requests one pass sends ask for
    pairwise distinct composite keys of the dataset: with k distinct keys
    among the rows, at most k requests are sent, however many rows there
    are. *)
Theorem get_coordinates_requests (data : frame) (w : world) :
  exists new,
    requests (snd (_get_coordinates service api_key data w))
      = (requests w ++ new)%list /\
    NoDup (addresses new) /\
    (forall a, a ∈ addresses new -> a ∈ map city_country data) /\
    (length new <= length (remove_dups (map city_country data)))%nat.
Proof.
  destruct (_get_coordinates service api_key data w) as [res w1] eqn:Hrun.
  destruct (get_coordinates_post _ _ _ _ Hrun) as (new & Hreq & _ & Hnd & Haddr & _).
  assert (Hsub : forall a, a ∈ addresses new -> a ∈ map city_country data).
  { intros a Ha. destruct (Haddr a Ha) as (_ & r & Hr & <-).
    apply list_elem_of_fmap. exists r. split; [reflexivity|].
    eapply drop_duplicates_from_elem, Hr. }
  exists new. split_and!; [exact Hreq | exact Hnd | exact Hsub |].
  replace (length new) with (length (addresses new))
    by (unfold addresses; apply length_map).
  apply submseteq_length, NoDup_submseteq; [exact Hnd|].
  intros a Ha. apply elem_of_remove_dups. auto.
Qed.

Lemma update_file_run (path : string) (data : frame) (w : world) :
  _update_file service path api_key data w =
  match _get_coordinates service api_key data w with
  | (inl e, w1) => (inl e, w1)
  | (inr m, w1) =>
      match write_back m data with
      | inl e => (inl e, w1)
      | inr d =>
          (inr d, mkWorld (<[path := d]> (files w1)) (requests w1) (stdout w1))
      end
  end.
Proof.
  unfold _update_file, bind, lift, to_csv, ret, write_back, and_then.
  destruct (_get_coordinates service api_key data w) as [[e|m] w1]; [reflexivity|].
  destruct (traverse (lookup_coord m fst) data) as [e|lats]; [reflexivity|].
  now destruct (traverse (lookup_coord m snd) _).
Qed.

Lemma get_coordinates_all_keys (data : frame) (w w1 : world)
    (m : gmap string (pyval * pyval)) :
  _get_coordinates service api_key data w = (inr m, w1) ->
  forall r, r ∈ data -> is_Some (m !! city_country r).
Proof.
  intros Hrun r Hr.
  destruct (get_coordinates_post _ _ _ _ Hrun) as (new & _ & _ & _ & _ & Hres).
  destruct (Hres m eq_refl) as (_ & Hall & _).
  destruct (drop_duplicates_from_key [] data r Hr) as [(s & Hs & _) | (c & Hc & E)].
  - now apply elem_of_nil in Hs.
  - rewrite <- E. now apply Hall.
Qed.

Lemma first_with_key_elem (data : frame) (r : record) :
  r ∈ data -> exists r0, first_with_key (city_country r) data = Some r0.
Proof.
  intros Hr. unfold first_with_key.
  destruct (List.find (has_key (city_country r)) data) as [r0|] eqn:Hf; [eauto|].
  apply list_elem_of_In in Hr.
  pose proof (find_none _ _ Hf r Hr) as Hk.
  unfold has_key in Hk. now rewrite String.eqb_refl in Hk.
Qed.

Lemma string_app_assoc (a b c : string) : (a ++ b) ++ c = a ++ b ++ c.
Proof.
  induction a as [|x a IH]; [reflexivity|].
  rewrite !append_cons. now rewrite IH.
Qed.

(** The value of the key column is the key of the loop, unless a name is
    missing. *)
Lemma derived_key_text (r : record) (x : string) :
  derived_key r = Text x -> x = city_country r.
Proof.
  unfold derived_key, city_country.
  destruct (City r) as [a|], (Country r) as [b|]; cbn; try discriminate.
  intros [= <-]. apply string_app_assoc.
Qed.

Lemma with_coords_key (m : gmap string (pyval * pyval)) (r : record) :
  City_Country r = Some (derived_key r) -> covered m r ->
  exists p, m !! city_country r = Some p /\
            with_coords m r = set_Longitude (set_Latitude r (fst p)) (snd p).
Proof.
  intros Hcc (x & p & Hx & Hp). exists p.
  assert (x = city_country r) as <-
    by (apply derived_key_text; congruence).
  split; [exact Hp|]. unfold with_coords. now rewrite Hx, Hp.
Qed.

Lemma coordinates_inv (c : record) (p : pyval * pyval) :
  coordinates c = inr p ->
  exists lat lng,
    _coords (Latitude c) = inr lat /\ _coords (Longitude c) = inr lng /\
    p = (VFloat lat, VFloat lng).
Proof.
  unfold coordinates. destruct (_coords (Latitude c)) as [e|lat]; [discriminate|].
  destruct (_coords (Longitude c)) as [e|lng]; [discriminate|].
  intros [= <-]. eauto.
Qed.

(** C3. After a write-back that returns, over the key column the loader
    derives: the mapping the pass returned has, for the composite key of
    every row, the pair that the one request sent for that key decides;
    the pair of the reply when the lookup succeeded, and when it failed
    the floats [_coords] gives on the latitude and on the longitude of
    the first row of the dataset with that key.  Rows with one key hold
    one pair after the write-back, and a coordinate the mapping holds as
    a float (every fallback coordinate is one) is in the row as it is
    in the mapping. *)
Theorem update_file_values (path : string) (data data' : frame) (w w' : world) :
  (forall r, r ∈ data -> City_Country r = Some (derived_key r)) ->
  _update_file service path api_key data w = (inr data', w') ->
  exists m w1 new,
    _get_coordinates service api_key data w = (inr m, w1) /\
    requests w1 = (requests w ++ new)%list /\
    NoDup (addresses new) /\
    (forall r, r ∈ data ->
       exists r0 o p,
         first_with_key (city_country r) data = Some r0 /\
         (mkRequest (city_country r) api_key, o) ∈ new /\
         m !! city_country r = Some p /\
         match reply_of o with
         | Some q => p = q
         | None =>
             exists lat lng,
               _coords (Latitude r0) = inr lat /\
               _coords (Longitude r0) = inr lng /\
               p = (VFloat lat, VFloat lng)
         end) /\
    Forall2 (fun r r' =>
               exists p, m !! city_country r = Some p /\
                 (is_float (fst p) = true -> Latitude r' = fst p) /\
                 (is_float (snd p) = true -> Longitude r' = snd p))
            data data' /\
    (forall i j r s r' s',
       data !! i = Some r -> data !! j = Some s ->
       data' !! i = Some r' -> data' !! j = Some s' ->
       city_country r = city_country s ->
       Latitude r' = Latitude s' /\ Longitude r' = Longitude s').
Proof.
  intros Hcc Hrun. rewrite update_file_run in Hrun.
  destruct (_get_coordinates service api_key data w) as [[e|m] w1] eqn:Hget;
    [discriminate|].
  destruct (write_back m data) as [e|d] eqn:Hwb; [discriminate|].
  injection Hrun as <- <-. apply write_back_inv in Hwb. destruct Hwb as [Hcov ->].
  destruct (get_coordinates_post _ _ _ _ Hget) as (new & Hreq & _ & Hnd & _ & Hres).
  destruct (Hres m eq_refl) as (_ & _ & Hnew).
  assert (Hrow : forall r, r ∈ data ->
            exists p, m !! city_country r = Some p /\
              with_coords m r = set_Longitude (set_Latitude r (fst p)) (snd p)).
  { intros r Hr. apply with_coords_key; [now apply Hcc|].
    now apply (proj1 (Forall_forall _ _) Hcov). }
  exists m, w1, new. split_and!; [reflexivity | exact Hreq | exact Hnd | | |].
  - intros r Hr. destruct (first_with_key_elem data r Hr) as [r0 Hr0].
    destruct (Hnew (city_country r) r0) as (o & p & Hin & Ho & Hm).
    + apply lookup_empty.
    + unfold drop_duplicates. rewrite drop_duplicates_from_first; [exact Hr0|].
      intros s []%elem_of_nil.
    + exists r0, o, p. split_and!; try assumption.
      unfold resolved in Ho. destruct (reply_of o) as [q|]; [congruence|].
      now apply coordinates_inv.
  - apply Forall2_fmap_r, Forall_Forall2_diag, Forall_forall. intros r Hr.
    unfold compose. destruct (Hrow r Hr) as (p & Hp & ->). exists p. cbn. auto.
  - intros i j r s r' s' Hi Hj Hi' Hj' Hkey.
    rewrite list_lookup_fmap, Hi in Hi'. rewrite list_lookup_fmap, Hj in Hj'.
    cbn in Hi', Hj'. injection Hi' as <-. injection Hj' as <-.
    destruct (Hrow r) as (p & Hp & ->); [eapply list_elem_of_lookup_2, Hi|].
    destruct (Hrow s) as (q & Hq & ->); [eapply list_elem_of_lookup_2, Hj|].
    rewrite Hkey in Hp. assert (p = q) as -> by congruence. cbn. auto.
Qed.

(** The files after [_update_file]: untouched when it raises, the
    returned table stored at [path] when it returns. *)
Lemma update_file_post (path : string) (data : frame) (w : world) :
  match _update_file service path api_key data w with
  | (inl _, w') => files w' = files w
  | (inr d, w') =>
      files w' = <[path := d]> (files w) /\
      exists m, Forall (covered m) data /\ d = map (with_coords m) data
  end.
Proof.
  rewrite update_file_run.
  destruct (_get_coordinates service api_key data w) as [[e|m] w1] eqn:Hget;
    destruct (get_coordinates_post _ _ _ _ Hget) as (new & _ & Hfiles & _);
    [exact Hfiles|].
  destruct (write_back m data) as [e|d] eqn:Hwb; [exact Hfiles|].
  cbn [files]. rewrite Hfiles. split; [reflexivity|].
  exists m. now apply write_back_inv.
Qed.

(** C6. [_update_file] writes the file once, as its last step: when it
    raises, whatever the point, the files are as they were; when it
    returns, the file holds the table it returns, every row of which
    has the pair of the mapping.  A coordinate that does not parse
    aborts the pass with the file untouched. *)
Theorem update_file_writes_last (path : string) (data : frame) (w : world) :
  match _update_file service path api_key data w with
  | (inl _, w') => files w' = files w
  | (inr d, w') =>
      files w' = <[path := d]> (files w) /\
      exists m, Forall (covered m) data /\ d = map (with_coords m) data
  end /\
  let bad := [raw_row "2015-01-01" "Lyon" "France" "45,76N" "4.84E"] in
  let w0 := mkWorld {["cities.csv" := bad]} [] [] in
  let run := _update_file paris_only "cities.csv" "k" bad w0 in
  fst run = inl ValueError /\ files (snd run) = files w0.
Proof.
  split; [apply update_file_post|].
  vm_compute. split; reflexivity.
Qed.

End PassProperties.

(** ** The loader *)

Section Loader.

Variable service : list (request * http_outcome) -> request -> http_outcome.
Variable parse_datetime : pyval -> result Z.
Variable year_of : Z -> Z.

Abbreviation prepare := (prepare_row parse_datetime year_of).
Abbreviation init := (__init__ service parse_datetime year_of).

(** The three column assignments of [__init__], row by row. *)
Lemma prepare_columns (d0 : frame) :
  match traverse (to_datetime parse_datetime) (map dt d0) with
  | inl e => traverse prepare d0 = inl e
  | inr stamps =>
      traverse prepare d0
      = inr (map (fun r => set_City_Country r (derived_key r))
               (zip_with set_Year
                  (zip_with set_dt d0 (map VTimestamp stamps))
                  (map (fun t => VInt (year_of t)) stamps)))
  end.
Proof.
  induction d0 as [|r d0 IH]; [reflexivity|].
  cbn [map traverse]. unfold prepare_row.
  destruct (to_datetime parse_datetime (dt r)) as [e|t]; [reflexivity|].
  fold (prepare_row parse_datetime year_of).
  destruct (traverse (to_datetime parse_datetime) (map dt d0)) as [e|stamps];
    rewrite IH; reflexivity.
Qed.

Lemma init_run (path api_key : string) (w : world) :
  init path api_key w =
  match files w !! path with
  | None => (inl (FileNotFoundError path), w)
  | Some d0 =>
      match traverse prepare d0 with
      | inl e => (inl e, w)
      | inr d =>
          match first_Latitude d with
          | inl e => (inl e, w)
          | inr lat0 =>
              if is_str lat0 then
                match _update_file service path api_key d w with
                | (inl e, w') => (inl e, w')
                | (inr d', w') => (inr (mkLocation path api_key d'), w')
                end
              else (inr (mkLocation path api_key d), w)
          end
      end
  end.
Proof.
  unfold __init__, bind, read_csv, lift, ret.
  destruct (files w !! path) as [d0|]; [|reflexivity].
  pose proof (prepare_columns d0) as Hp.
  destruct (traverse (to_datetime parse_datetime) (map dt d0)) as [e|stamps];
    rewrite Hp; [reflexivity|].
  destruct (first_Latitude _) as [e|lat0]; [reflexivity|].
  destruct (is_str lat0); [|reflexivity].
  now destruct (_update_file _ _ _ _ _) as [[e|d'] w'].
Qed.

Lemma prepare_row_inv (r r' : record) :
  prepare r = inr r' ->
  exists t, to_datetime parse_datetime (dt r) = inr t /\
    r' = mkRecord (VTimestamp t) (City r) (Country r) (Latitude r) (Longitude r)
                  (Some (VInt (year_of t))) (Some (derived_key r)) (other r).
Proof.
  unfold prepare_row. destruct (to_datetime parse_datetime (dt r)) as [e|t];
    [discriminate|].
  intros [= <-]. eauto.
Qed.










Lemma with_coords_frame (m : gmap string (pyval * pyval)) (r : record) :
  dt (with_coords m r) = dt r /\ City (with_coords m r) = City r /\
  Country (with_coords m r) = Country r /\ Year (with_coords m r) = Year r /\
  City_Country (with_coords m r) = City_Country r /\
  other (with_coords m r) = other r.
Proof.
  unfold with_coords. destruct (City_Country r) as [[x|]|] eqn:Hx;
    [|repeat split; assumption|repeat split; assumption].
  destruct (m !! x); cbn; repeat split; auto.
Qed.

(** C8, as the code has it. A load that returns keeps, row by row, the
    place name, the region name and every column other than the
    timestamp, the two derived columns and the coordinates; the timestamp
    column does not keep its values: each is replaced by the datetime
    parsed from it, whose year fills the year column, and the key column
    holds "<City>, <Country>".  The coordinates are kept too when the
    first latitude is not text. *)
Theorem init_frame (path api_key : string) (w w' : world) (d0 : frame)
    (loc : Location) :
  files w !! path = Some d0 ->
  init path api_key w = (inr loc, w') ->
  Forall2 (fun r r' =>
             City r' = City r /\ Country r' = Country r /\ other r' = other r /\
             (exists t, to_datetime parse_datetime (dt r) = inr t /\
                        dt r' = VTimestamp t /\
                        Year r' = Some (VInt (year_of t))) /\
             City_Country r' = Some (derived_key r))
          d0 (data loc) /\
  (forall lat0, first_Latitude d0 = inr lat0 -> is_str lat0 = false ->
     Forall2 (fun r r' => Latitude r' = Latitude r /\ Longitude r' = Longitude r)
             d0 (data loc)).
Proof.
  intros Hfile Hrun. rewrite init_run, Hfile in Hrun.
  destruct (traverse prepare d0) as [e|d] eqn:Hprep; [discriminate|].
  apply traverse_inv in Hprep.
  assert (Hd : Forall2 (fun r r' =>
             City r' = City r /\ Country r' = Country r /\ other r' = other r /\
             (exists t, to_datetime parse_datetime (dt r) = inr t /\
                        dt r' = VTimestamp t /\
                        Year r' = Some (VInt (year_of t))) /\
             City_Country r' = Some (derived_key r) /\
             Latitude r' = Latitude r /\ Longitude r' = Longitude r) d0 d).
  { eapply Forall2_impl; [exact Hprep|]. cbn beta.
    intros r r' (t & Ht & ->)%prepare_row_inv. cbn. eauto 10. }
  assert (Hfirst : first_Latitude d = first_Latitude d0).
  { destruct Hd as [|r r' ? ? (_ & _ & _ & _ & _ & Hlat & _) _]; cbn; congruence. }
  rewrite Hfirst in Hrun. clear Hprep Hfirst.
  destruct (first_Latitude d0) as [e|lat0]; [discriminate|].
  destruct (is_str lat0) eqn:Hstr.
  - pose proof (update_file_post service api_key path d w) as Hw.
    destruct (_update_file service path api_key d w) as [[e|d'] w1];
      [discriminate|].
    injection Hrun as <- <-. destruct Hw as (_ & m & _ & ->). cbn [data].
    split; [|intros ? [= <-]; congruence].
    apply Forall2_fmap_r. eapply Forall2_impl; [exact Hd|]. cbn beta.
    intros r r' (HC & HR & HO & (t & Ht & Hdt & Hy) & HK & _).
    destruct (with_coords_frame m r') as (E1 & E2 & E3 & E4 & E5 & E6).
    split_and!; [congruence | congruence | congruence | | congruence].
    exists t. split_and!; congruence.
  - injection Hrun as <- <-. cbn [data]. split.
    + eapply Forall2_impl; [exact Hd|]. cbn beta. tauto.
    + intros _ _ _. eapply Forall2_impl; [exact Hd|]. cbn beta. tauto.
Qed.

End Loader.

(** ** The end-to-end scenario

    Two rows for Paris and one for Lyon, a service that knows Paris only:
    the properties above at this instance. *)

Example scenario_result :
  fst scenario_pass
    = inr {[ "Paris, France" := (VFloat 48.8566, VFloat 2.3522);
             "Lyon, France" := (VFloat 45.76, VFloat 4.84) ]} /\
  addresses (requests (snd scenario_pass)) = ["Paris, France"; "Lyon, France"] /\
  map Latitude scenario_resolved = [VFloat 48.8566; VFloat 48.8566; VFloat 45.76] /\
  map Longitude scenario_resolved = [VFloat 2.3522; VFloat 2.3522; VFloat 4.84].
Proof. vm_compute. repeat split. Qed.

(** C8, as the claim states it, fails: after the load the timestamp
    column holds datetimes, not the texts of the file; and a year column
    and a key column that the file already has are overwritten. *)
Lemma timestamp_column_rewritten :
  (fst scenario_load = inr scenario_location /\
   files world0 !! "cities.csv" = Some scenario /\
   map dt (data scenario_location) <> map dt scenario) /\
  (let run := __init__ paris_only iso_date civil_year "cities.csv" "k"
                (mkWorld {["cities.csv" := stale]} [] []) in
   exists loc, fst run = inr loc /\
     map Year (data loc) = [Some (VInt 2015)] /\
     map City_Country (data loc) = [Some (Text "Paris, France")] /\
     map Year (data loc) <> map Year stale /\
     map City_Country (data loc) <> map City_Country stale).
Proof.
  split.
  - vm_compute. repeat split. discriminate.
  - vm_compute. eexists. split; [reflexivity|]. repeat split; discriminate.
Qed.


Lemma scenario_prepared_keys :
  forall r, r ∈ scenario_prepared -> City_Country r = Some (derived_key r).
Proof.
  intros r Hr. vm_compute in Hr.
  repeat (apply elem_of_cons in Hr; destruct Hr as [->|Hr]; [reflexivity|]).
  now apply elem_of_nil in Hr.
Qed.

Lemma update_file_values_witness :
  exists (m : gmap string (pyval * pyval)) (w1 : world),
    _get_coordinates paris_only "k" scenario_prepared world0 = (inr m, w1)
    /\ Forall2 (fun r r' =>
                 exists p, m !! city_country r = Some p /\
                   (is_float (fst p) = true -> Latitude r' = fst p) /\
                   (is_float (snd p) = true -> Longitude r' = snd p))
               scenario_prepared scenario_resolved.
Proof.
  assert (Hrun : _update_file paris_only "cities.csv" "k" scenario_prepared world0
                 = (inr scenario_resolved, snd scenario_update))
    by (vm_compute; reflexivity).
  destruct (update_file_values paris_only "k" "cities.csv" _ _ _ _
              scenario_prepared_keys Hrun)
    as (m & w1 & new & Hget & _ & _ & _ & Hrows & _).
  exists m, w1. split; [exact Hget | exact Hrows].
Defined.



Lemma init_frame_witness :
  Forall2 (fun r r' =>
             City r' = City r /\ Country r' = Country r /\ other r' = other r /\
             (exists t, to_datetime iso_date (dt r) = inr t /\
                        dt r' = VTimestamp t /\
                        Year r' = Some (VInt (civil_year t))) /\
             City_Country r' = Some (derived_key r))
          scenario (data scenario_location).
Proof.
  assert (Hfile : files world0 !! "cities.csv" = Some scenario)
    by (vm_compute; reflexivity).
  assert (Hload : __init__ paris_only iso_date civil_year "cities.csv" "k" world0
                  = (inr scenario_location, snd scenario_load))
    by (vm_compute; reflexivity).
  exact (proj1 (init_frame paris_only iso_date civil_year "cities.csv" "k"
                  _ _ _ _ Hfile Hload)).
Defined.

(** * Further properties of the code *)

(** ** [_coords]: when it raises *)

(** X1. [_coords] raises [IndexError] on the empty text and [ValueError]
    on a text whose part before the final character is not a number; on
    a number or a bool it raises the exception of subscripting one (a
    [TypeError] on a Python object, an [IndexError] on a numpy scalar),
    on [None] and on a timestamp [TypeError]; it returns only on a
    non-empty text whose part before the final character is a number. *)
Theorem coords_errors :
  _coords (VStr "") = inl IndexError /\
  (forall p c, py_float p = None ->
     _coords (VStr (p ++ String c "")) = inl ValueError) /\
  (forall v, match v with
             | VFloat _ | VInt _ | VBool _ => _coords v = inl NotSubscriptable
             | VNone | VTimestamp _ => _coords v = inl TypeError
             | VStr _ | VList _ | VDict _ => True
             end) /\
  (forall v f, _coords v = inr f ->
     exists p c g, v = VStr (p ++ String c "") /\ py_float p = Some g).
Proof.
  split_and!.
  - reflexivity.
  - intros p c Hp. now rewrite _coords_snoc, Hp.
  - now intros [].
  - intros v f Hv. destruct v as [| | | |s| |l|d]; try discriminate.
    + destruct (string_dec s "") as [->|Hs]; [discriminate|].
      destruct (string_snoc s Hs) as (p & c & ->).
      rewrite _coords_snoc in Hv.
      destruct (py_float p) as [g|] eqn:Hp; [eauto|discriminate].
    + unfold _coords in Hv. destruct (getitem (VList l) (VInt (-1))); discriminate.
Qed.

(** ** The loop of [_get_coordinates], request by request *)

Section PassExtras.

Variable service : list (request * http_outcome) -> request -> http_outcome.
Variable api_key : string.

(** What [google_coords] prints, by what it returns. *)
Lemma google_coords_out (c : record) (w : world) :
  exists out,
    google_coords service api_key c w
    = (inr (reply_of (service (requests w) (request_of api_key c))),
       answered service api_key w c out) /\
    match reply_of (service (requests w) (request_of api_key c)) with
    | Some _ => out = []
    | None => exists l, out = [l] /\ line_city l = City c
    end.
Proof.
  unfold google_coords, try_except, bind, requests_get_json, lift, print, ret,
    answered, reply_of, location_of, and_then, request_of.
  fold (request_of api_key c). cbn [requests files stdout].
  destruct (service (requests w) (request_of api_key c)) as [e | body];
    [eexists [_]; split; [reflexivity | eexists; split; reflexivity]|].
  destruct (getitem body (VStr "status")) as [e | status];
    [eexists [_]; split; [reflexivity | eexists; split; reflexivity]|].
  destruct (pyval_eqb status (VStr "OK"));
    [|eexists [_]; split; [reflexivity | eexists; split; reflexivity]].
  repeat match goal with
  | |- context [getitem ?a ?b] =>
      destruct (getitem a b);
      [eexists [_]; split; [reflexivity | eexists; split; reflexivity]|]
  end.
  exists []. rewrite app_nil_r. split; reflexivity.
Qed.

Lemma resolve_city_grows (m m' : gmap string (pyval * pyval)) (c : record)
    (w w' : world) :
  resolve_city service api_key m c w = (inr m', w') ->
  is_Some (m' !! city_country c) /\
  (forall k p, m !! k = Some p -> m' !! k = Some p) /\
  dom m' = {[city_country c]} ∪ dom m.
Proof.
  intros Hrun. destruct (m !! city_country c) as [p0|] eqn:Hc.
  - rewrite resolve_city_known in Hrun by (rewrite Hc; eauto).
    injection Hrun as <- <-. split_and!; [rewrite Hc; eauto | auto |].
    apply elem_of_dom_2 in Hc. clear -Hc. set_solver.
  - destruct (resolve_city_new service api_key m c w Hc) as [out Hstep].
    rewrite Hstep in Hrun. destruct (resolved _ c) as [e|p]; [discriminate|].
    injection Hrun as <- <-. split_and!.
    + rewrite lookup_insert_eq. eauto.
    + intros k q Hk. rewrite lookup_insert_ne; [exact Hk | congruence].
    + apply dom_insert_L.
Qed.

Lemma foldM_drop_duplicates (l seen : list record) :
  forall m w,
    (forall s, s ∈ seen -> is_Some (m !! city_country s)) ->
    foldM (resolve_city service api_key) (drop_duplicates_from seen l) m w
    = foldM (resolve_city service api_key) l m w.
Proof.
  revert seen. induction l as [|r l IH]; intros seen m w Hseen; [reflexivity|].
  cbn [drop_duplicates_from]. destruct (existsb (same_place r) seen) eqn:Hdup.
  - apply existsb_exists in Hdup. destruct Hdup as (s & Hs & Hsame).
    apply same_place_key in Hsame. apply list_elem_of_In in Hs.
    cbn [foldM]. unfold bind.
    rewrite resolve_city_known by (rewrite Hsame; auto).
    now apply IH.
  - cbn [foldM]. unfold bind.
    destruct (resolve_city service api_key m r w) as [[e|m'] w'] eqn:Hstep;
      [reflexivity|].
    destruct (resolve_city_grows _ _ _ _ _ Hstep) as (Hr & Hkeep & _).
    apply IH. intros s [->|Hs]%elem_of_cons; [exact Hr|].
    destruct (Hseen s Hs) as [p Hp]. rewrite (Hkeep _ _ Hp). eauto.
Qed.

(** X4. The [drop_duplicates] of [_get_coordinates] changes nothing of
    what the method does: running the loop over every row of the table
    gives the same mapping, the same requests and the same output, since
    the loop itself skips a key it has already resolved. *)
Theorem get_coordinates_without_dedup (data : frame) (w : world) :
  _get_coordinates service api_key data w
  = foldM (resolve_city service api_key) data ∅ w.
Proof.
  unfold _get_coordinates, drop_duplicates. apply foldM_drop_duplicates.
  intros s []%elem_of_nil.
Qed.

Lemma resolve_city_out (m : gmap string (pyval * pyval)) (c : record)
    (w : world) :
  m !! city_country c = None ->
  exists out,
    resolve_city service api_key m c w
    = (match resolved (service (requests w) (request_of api_key c)) c with
       | inr p => inr (<[city_country c := p]> m)
       | inl e => inl e
       end, answered service api_key w c out) /\
    length out
    = length (List.filter failed
                [(request_of api_key c,
                  service (requests w) (request_of api_key c))]).
Proof.
  intros Hm. unfold resolve_city, bind, resolved. rewrite Hm.
  destruct (google_coords_out c w) as (out & -> & Hout). exists out.
  cbn [List.filter]. unfold failed. cbn [snd].
  destruct (reply_of _) as [p|].
  - subst out. split; reflexivity.
  - destruct Hout as (l & -> & _). split; [|reflexivity].
    unfold lift, ret. now destruct (coordinates c).
Qed.

Lemma foldM_prints (cs : list record) :
  forall m0 w0 res w1,
    foldM (resolve_city service api_key) cs m0 w0 = (res, w1) ->
    exists new out,
      requests w1 = (requests w0 ++ new)%list /\
      stdout w1 = (stdout w0 ++ out)%list /\
      length out = length (List.filter failed new).
Proof.
  induction cs as [|c cs IH]; intros m0 w0 res w1 Hrun.
  - cbn in Hrun. injection Hrun as <- <-. exists [], [].
    now rewrite !app_nil_r.
  - cbn [foldM] in Hrun. unfold bind in Hrun.
    destruct (m0 !! city_country c) as [p0|] eqn:Hc.
    + rewrite resolve_city_known in Hrun by (rewrite Hc; eauto). eauto.
    + destruct (resolve_city_out m0 c w0 Hc) as (out & Hstep & Hout).
      rewrite Hstep in Hrun. clear Hstep.
      set (e := (request_of api_key c,
                 service (requests w0) (request_of api_key c))) in *.
      destruct (resolved _ c) as [err | p].
      * injection Hrun as <- <-. exists [e], out. auto.
      * destruct (IH _ _ _ _ Hrun) as (new & out' & Hreq & Hstd & Hlen).
        exists (e :: new), (out ++ out')%list. cbn [requests stdout answered] in *.
        split_and!.
        -- rewrite Hreq. now rewrite <- app_assoc.
        -- rewrite Hstd. now rewrite <- app_assoc.
        -- change (e :: new) with ([e] ++ new)%list.
           rewrite List.filter_app, !length_app. congruence.
Qed.

(** X2. [google_coords] prints nothing when it returns a pair and exactly
    one line, naming the city of the row, when it returns [None]; so a
    pass prints as many lines as it had lookups that failed, whether it
    returns or raises. *)
Theorem google_coords_prints (c : record) (data : frame) (w : world) :
  (exists out,
     google_coords service api_key c w
     = (inr (reply_of (service (requests w) (request_of api_key c))),
        answered service api_key w c out) /\
     match reply_of (service (requests w) (request_of api_key c)) with
     | Some _ => out = []
     | None => exists l, out = [l] /\ line_city l = City c
     end) /\
  (exists new out,
     requests (snd (_get_coordinates service api_key data w))
       = (requests w ++ new)%list /\
     stdout (snd (_get_coordinates service api_key data w))
       = (stdout w ++ out)%list /\
     length out = length (List.filter failed new)).
Proof.
  split; [apply google_coords_out|].
  destruct (_get_coordinates service api_key data w) as [res w1] eqn:Hrun.
  apply (foldM_prints _ _ _ _ _ Hrun).
Qed.

(** *** The requests of a pass, in order *)

Lemma fresh_keys_spec (ks : list string) :
  forall seen : gset string,
    NoDup (fresh_keys seen ks) /\
    forall k, k ∈ fresh_keys seen ks <-> k ∈ ks /\ k ∉ seen.
Proof.
  induction ks as [|k0 ks IH]; intros seen; cbn.
  - split; [constructor|]. intros k. rewrite elem_of_nil. tauto.
  - destruct (decide (k0 ∈ seen)) as [Hin|Hout].
    + destruct (IH seen) as [Hnd Hel]. split; [exact Hnd|].
      intros k. rewrite Hel, elem_of_cons. split; [tauto|].
      intros [[->|Hk] Hs]; tauto.
    + destruct (IH ({[k0]} ∪ seen)) as [Hnd Hel]. split.
      * apply NoDup_cons. split; [|exact Hnd]. rewrite Hel. set_solver.
      * intros k. rewrite !elem_of_cons, Hel.
        destruct (decide (k = k0)) as [->|Hne]; set_solver.
Qed.

Lemma foldM_requests (cs : list record) :
  forall m0 w0 res w1,
    foldM (resolve_city service api_key) cs m0 w0 = (res, w1) ->
    exists new,
      requests w1 = (requests w0 ++ new)%list /\
      map fst new `prefix_of`
        map (fun k => mkRequest k api_key)
            (fresh_keys (dom m0) (map city_country cs)) /\
      forall m, res = inr m ->
        map fst new
        = map (fun k => mkRequest k api_key)
              (fresh_keys (dom m0) (map city_country cs)) /\
        dom m = dom m0 ∪ list_to_set (map city_country cs).
Proof.
  induction cs as [|c cs IH]; intros m0 w0 res w1 Hrun.
  - cbn in Hrun. injection Hrun as <- <-. exists []. rewrite app_nil_r.
    split_and!; [reflexivity | apply prefix_nil |].
    intros m [= <-]. split; [reflexivity|]. cbn. set_solver.
  - cbn [foldM] in Hrun. unfold bind in Hrun. cbn [map fresh_keys].
    destruct (m0 !! city_country c) as [p0|] eqn:Hc.
    + rewrite resolve_city_known in Hrun by (rewrite Hc; eauto).
      apply elem_of_dom_2 in Hc.
      destruct (decide (city_country c ∈ dom m0)) as [_|Hno]; [|tauto].
      destruct (IH _ _ _ _ Hrun) as (new & Hreq & Hpre & Hres).
      exists new. split_and!; [exact Hreq | exact Hpre |].
      intros m Hm. destruct (Hres m Hm) as [Hall Hdom].
      split; [exact Hall|]. rewrite Hdom. cbn. clear -Hc. set_solver.
    + destruct (resolve_city_new service api_key m0 c w0 Hc) as [out Hstep].
      rewrite Hstep in Hrun. clear Hstep.
      apply not_elem_of_dom in Hc.
      destruct (decide (city_country c ∈ dom m0)) as [Hyes|_]; [tauto|].
      set (o := service (requests w0) (request_of api_key c)) in *.
      destruct (resolved o c) as [e | p].
      * injection Hrun as <- <-. exists [(request_of api_key c, o)].
        split_and!; [reflexivity | | discriminate].
        cbn [map fst]. apply prefix_cons, prefix_nil.
      * destruct (IH _ _ _ _ Hrun) as (new & Hreq & Hpre & Hres).
        rewrite dom_insert_L in Hpre, Hres.
        exists ((request_of api_key c, o) :: new). split_and!.
        -- rewrite Hreq. cbn. now rewrite <- app_assoc.
        -- cbn [map fst]. now apply prefix_cons.
        -- intros m Hm. destruct (Hres m Hm) as [Hall Hdom].
           split; [cbn [map fst]; now rewrite Hall|].
           rewrite Hdom. cbn. clear. set_solver.
Qed.

(** X3. A pass sends its requests in the order in which the composite
    keys first appear in the table, each with the API key: when the pass
    returns there is exactly one request per distinct key and the
    mapping has exactly the keys of the table; when it raises, the
    requests sent are the first ones of that sequence. *)
Theorem get_coordinates_request_order (data : frame) (w : world) :
  let keys := first_seen (map city_country data) in
  NoDup keys /\ (forall k, k ∈ keys <-> k ∈ map city_country data) /\
  exists new,
    requests (snd (_get_coordinates service api_key data w))
      = (requests w ++ new)%list /\
    map fst new `prefix_of` map (fun k => mkRequest k api_key) keys /\
    forall m, fst (_get_coordinates service api_key data w) = inr m ->
      map fst new = map (fun k => mkRequest k api_key) keys /\
      dom m = list_to_set (map city_country data).
Proof.
  intros keys. subst keys. unfold first_seen.
  destruct (fresh_keys_spec (map city_country data) ∅) as [Hnd Hel].
  split_and!; [exact Hnd | intros k; rewrite (Hel k); set_solver |].
  unfold _get_coordinates, drop_duplicates.
  rewrite foldM_drop_duplicates by (intros s []%elem_of_nil).
  destruct (foldM _ data ∅ w) as [res w1] eqn:Hrun.
  destruct (foldM_requests _ _ _ _ _ Hrun) as (new & Hreq & Hpre & Hres).
  rewrite dom_empty_L in Hpre, Hres.
  exists new. split_and!; [exact Hreq | exact Hpre |].
  intros m Hm. destruct (Hres m Hm) as [Hall Hdom].
  split; [exact Hall|]. rewrite Hdom. clear. set_solver.
Qed.

(** *** What [_update_file] leaves alone *)

(** X5. [_update_file] changes the two coordinate columns only: the table
    it returns has the rows of the table it was given, in their order,
    each with its timestamp, names, derived columns and other columns as
    they were. *)
Theorem update_file_frame (path : string) (data : frame) (w : world) :
  match fst (_update_file service path api_key data w) with
  | inl _ => True
  | inr data' =>
      Forall2 (fun r r' =>
                 dt r' = dt r /\ City r' = City r /\ Country r' = Country r /\
                 Year r' = Year r /\ City_Country r' = City_Country r /\
                 other r' = other r)
              data data'
  end.
Proof.
  pose proof (update_file_post service api_key path data w) as Hpost.
  destruct (_update_file service path api_key data w) as [[e|data'] w'];
    [exact I|].
  cbn [fst]. destruct Hpost as (_ & m & _ & ->).
  apply Forall2_fmap_r, Forall_Forall2_diag, Forall_forall. intros r _.
  apply with_coords_frame.
Qed.

Lemma update_file_world (path : string) (data : frame) (w : world) :
  exists new out,
    requests (snd (_update_file service path api_key data w))
      = (requests w ++ new)%list /\
    stdout (snd (_update_file service path api_key data w))
      = (stdout w ++ out)%list /\
    delete path (files (snd (_update_file service path api_key data w)))
      = delete path (files w).
Proof.
  pose proof (update_file_post service api_key path data w) as Hpost.
  rewrite update_file_run in *.
  destruct (_get_coordinates service api_key data w) as [res w1] eqn:Hget.
  destruct (foldM_prints _ _ _ _ _ Hget) as (new & out & Hreq & Hstd & _).
  exists new, out. destruct res as [e|m]; cbn [snd] in *.
  - now rewrite Hpost.
  - destruct (write_back m data) as [e|d]; cbn [snd requests stdout files] in *.
    + now rewrite Hpost.
    + destruct Hpost as [-> _]. split_and!; [exact Hreq | exact Hstd |].
      apply delete_insert_eq.
Qed.

End PassExtras.

(** ** A service that replies with floats *)

Section FloatService.

Variable service : list (request * http_outcome) -> request -> http_outcome.
Variable parse_datetime : pyval -> result Z.
Variable year_of : Z -> Z.
Variable api_key : string.

(** Every pair the service lets [google_coords] return is a pair of
    floats, as the latitude and longitude of a geocoding reply are. *)
Hypothesis replies_float :
  forall h rq p, reply_of (service h rq) = Some p -> float_pair p.

Lemma resolved_float (h : list (request * http_outcome)) (rq : request)
    (c : record) (p : pyval * pyval) :
  resolved (service h rq) c = inr p -> float_pair p.
Proof.
  unfold resolved. destruct (reply_of (service h rq)) as [q|] eqn:Hq.
  - intros [= <-]. eauto.
  - intros (lat & lng & _ & _ & ->)%coordinates_inv. split; reflexivity.
Qed.

Lemma foldM_float (cs : list record) :
  forall m0 w0 m w1,
    foldM (resolve_city service api_key) cs m0 w0 = (inr m, w1) ->
    (forall k p, m0 !! k = Some p -> float_pair p) ->
    forall k p, m !! k = Some p -> float_pair p.
Proof.
  induction cs as [|c cs IH]; intros m0 w0 m w1 Hrun Hm0.
  - cbn in Hrun. now injection Hrun as <- <-.
  - cbn [foldM] in Hrun. unfold bind in Hrun.
    destruct (m0 !! city_country c) as [p0|] eqn:Hc.
    + rewrite resolve_city_known in Hrun by (rewrite Hc; eauto). eauto.
    + destruct (resolve_city_new service api_key m0 c w0 Hc) as [out Hstep].
      rewrite Hstep in Hrun. clear Hstep.
      destruct (resolved _ c) as [e|p] eqn:Hp; [discriminate|].
      apply (IH _ _ _ _ Hrun). intros k q [[_ <-]|[_ Hk]]%lookup_insert_Some.
      * eapply resolved_float, Hp.
      * eauto.
Qed.

Lemma update_file_all_float (path : string) (data data' : frame)
    (w w' : world) :
  _update_file service path api_key data w = (inr data', w') ->
  Forall (fun r => is_float (Latitude r) = true /\ is_float (Longitude r) = true)
         data'.
Proof.
  intros Hrun. rewrite update_file_run in Hrun.
  destruct (_get_coordinates service api_key data w) as [[e|m] w1] eqn:Hget;
    [discriminate|].
  destruct (write_back m data) as [e|d] eqn:Hwb; [discriminate|].
  injection Hrun as <- <-. apply write_back_inv in Hwb. destruct Hwb as [Hcov ->].
  apply Forall_fmap. eapply Forall_impl; [exact Hcov|].
  intros r (x & p & Hx & Hp). unfold with_coords. cbn. rewrite Hx, Hp. cbn.
  eapply foldM_float; [exact Hget | | exact Hp].
  intros k q. now rewrite lookup_empty.
Qed.

(** X6. With a service whose replies carry a float for the latitude and
    a float for the longitude, every coordinate of the table
    [_update_file] returns is a float. *)
Theorem update_file_floats (path : string) (data data' : frame)
    (w w' : world) :
  _update_file service path api_key data w = (inr data', w') ->
  Forall (fun r => is_float (Latitude r) = true /\ is_float (Longitude r) = true)
         data'.
Proof. apply update_file_all_float. Qed.


End FloatService.

(** ** A service that finds every place *)

Section FindingService.

Variable service : list (request * http_outcome) -> request -> http_outcome.
Variable api_key : string.

(** Every lookup succeeds. *)
Hypothesis always_found : forall h rq, is_Some (reply_of (service h rq)).

Lemma foldM_all_found (cs : list record) :
  forall m0 w0,
    exists m w1, foldM (resolve_city service api_key) cs m0 w0 = (inr m, w1).
Proof.
  induction cs as [|c cs IH]; intros m0 w0; [cbn; eauto|].
  cbn [foldM]. unfold bind.
  destruct (m0 !! city_country c) as [p0|] eqn:Hc.
  - rewrite resolve_city_known by (rewrite Hc; eauto). apply IH.
  - destruct (resolve_city_new service api_key m0 c w0 Hc) as [out ->].
    unfold resolved.
    destruct (always_found (requests w0) (request_of api_key c)) as [p ->].
    apply IH.
Qed.

(** X10. When every lookup succeeds the raw coordinates are never
    parsed: [_get_coordinates] returns a mapping whatever the latitude
    and longitude cells hold, with an entry for the composite key of
    every row. *)
Theorem get_coordinates_all_found (data : frame) (w : world) :
  exists m w1,
    _get_coordinates service api_key data w = (inr m, w1) /\
    forall r, r ∈ data -> is_Some (m !! city_country r).
Proof.
  destruct (foldM_all_found (drop_duplicates data) ∅ w) as (m & w1 & Hrun).
  fold (_get_coordinates service api_key data) in Hrun.
  exists m, w1. split; [exact Hrun|].
  exact (get_coordinates_all_keys service api_key _ _ _ _ Hrun).
Qed.

End FindingService.

(** ** What a load leaves alone *)

Section LoadExtras.

Variable service : list (request * http_outcome) -> request -> http_outcome.
Variable parse_datetime : pyval -> result Z.
Variable year_of : Z -> Z.

(** X8. A load raises before it sends a request or writes anything when
    the file is missing ([FileNotFoundError]), when the timestamp of
    some row, wherever it is, does not parse, and when the table has no
    row ([IndexError]). *)
Theorem init_fails_early (path api_key : string) (w : world) :
  (files w !! path = None ->
   __init__ service parse_datetime year_of path api_key w
   = (inl (FileNotFoundError path), w)) /\
  (files w !! path = Some [] ->
   __init__ service parse_datetime year_of path api_key w
   = (inl IndexError, w)) /\
  (forall d0 r e,
     files w !! path = Some d0 -> r ∈ d0 ->
     to_datetime parse_datetime (dt r) = inl e ->
     exists e', __init__ service parse_datetime year_of path api_key w
                = (inl e', w)).
Proof.
  split_and!.
  - intros Hf. now rewrite init_run, Hf.
  - intros Hf. now rewrite init_run, Hf.
  - intros d0 r e Hf Hr He. rewrite init_run, Hf.
    destruct (traverse (prepare_row parse_datetime year_of) d0) as [e'|d] eqn:Hp;
      [eauto|].
    exfalso. apply traverse_inv in Hp.
    apply list_elem_of_lookup in Hr. destruct Hr as [i Hi].
    destruct (Forall2_lookup_l _ _ _ _ _ Hp Hi) as (r' & _ & Hr').
    unfold prepare_row in Hr'. now rewrite He in Hr'.
Qed.

(** X9. Whatever a load does, it leaves every file other than the one at
    [path] as it was, and it only adds to the requests sent and to the
    lines printed. *)
Theorem init_only_its_file (path api_key : string) (w : world) :
  let w' := snd (__init__ service parse_datetime year_of path api_key w) in
  delete path (files w') = delete path (files w) /\
  requests w `prefix_of` requests w' /\
  stdout w `prefix_of` stdout w'.
Proof.
  cbn zeta. rewrite init_run.
  destruct (files w !! path) as [d0|]; [|split_and!; reflexivity].
  destruct (traverse _ d0) as [e|d]; [split_and!; reflexivity|].
  destruct (first_Latitude d) as [e|v]; [split_and!; reflexivity|].
  destruct (is_str v); [|split_and!; reflexivity].
  destruct (update_file_world service api_key path d w)
    as (new & out & Hreq & Hstd & Hfiles).
  destruct (_update_file service path api_key d w) as [[e|d'] w'];
    cbn [snd] in *; (split_and!; [exact Hfiles | |]);
    try (rewrite Hreq; now apply prefix_app_r);
    rewrite Hstd; now apply prefix_app_r.
Qed.

End LoadExtras.

(** ** The scenario again: a service that replies with floats *)

Lemma paris_only_float :
  forall h rq p, reply_of (paris_only h rq) = Some p -> float_pair p.
Proof.
  intros h rq p. unfold paris_only.
  destruct (String.eqb (address rq) "Paris, France"); vm_compute;
    [intros [= <-]; split; reflexivity | discriminate].
Qed.

Lemma update_file_floats_witness :
  Forall (fun r => is_float (Latitude r) = true /\ is_float (Longitude r) = true)
         scenario_resolved.
Proof.
  assert (Hrun : _update_file paris_only "cities.csv" "k" scenario_prepared world0
                 = (inr scenario_resolved, snd scenario_update))
    by (vm_compute; reflexivity).
  exact (update_file_floats paris_only "k" paris_only_float
           "cities.csv" _ _ _ _ Hrun).
Defined.


Lemma get_coordinates_all_found_witness :
  let anywhere := fun (_ : list (request * http_outcome)) (_ : request) =>
                    Replied paris_body in
  let unreadable := [mkRecord (VTimestamp 0) NaN (Text "Nowhere") (VStr "?")
                       VNone None (Some NaN) []] in
  exists m w1,
    _get_coordinates anywhere "k" unreadable world0 = (inr m, w1) /\
    forall r, r ∈ unreadable -> is_Some (m !! city_country r).
Proof.
  intros anywhere unreadable.
  refine (get_coordinates_all_found anywhere "k" _ unreadable world0).
  intros h rq. vm_compute. eauto.
Defined.
